(** * gym-music: the music-theory reward environment

    A shallow embedding of [music/music_env.py] and
    [music/music_theory_env.py], and the properties of the detectors, the
    reward functions and the step loop.

    Conventions of the embedding:
    - event codes, beats and lengths are Python integers, hence [Z];
    - rewards mix Python integers and decimal literals; they are read as
      exact rationals ([Q]), compared with [==];
    - an object is a record of its attributes; an attribute that has not been
      assigned yet is [None], and reading it raises [AttributeError];
    - a method is a computation [M A]: it receives the object, returns a
      value or raises, and hands the (possibly updated) object back, also
      when it raises;
    - the names [tf] and [rl_tuner_ops], which the module does not import
      itself, are taken to come with the star import of [util]; the debug
      logging calls are not part of the embedding. *)

From Stdlib Require Import ZArith QArith Lia.
From stdpp Require Import base list gmap strings.

Local Open Scope Z_scope.

(** ** Python lists *)

Module Py.

Definition len {A} (l : list A) : Z := Z.of_nat (length l).

(** [l[i]]: a negative index counts from the end; out of range is
    [None] (the caller raises [IndexError]). *)
Definition index {A} (l : list A) (i : Z) : option A :=
  if i <? 0
  then (if len l + i <? 0 then None else l !! Z.to_nat (len l + i))
  else l !! Z.to_nat i.

(** A slice bound is moved into [0 .. len l]. *)
Definition clamp (n i : Z) : Z :=
  if i <? 0 then Z.max (n + i) 0 else Z.min i n.

(** [l[i:]] *)
Definition slice_from {A} (l : list A) (i : Z) : list A :=
  drop (Z.to_nat (clamp (len l) i)) l.

(** [l[:j]] *)
Definition slice_to {A} (l : list A) (j : Z) : list A :=
  take (Z.to_nat (clamp (len l) j)) l.

(** [range(n)] *)
Definition range (n : Z) : list Z :=
  map Z.of_nat (seq 0 (Z.to_nat n)).

(** [range(start, -1, -1)]: [start, start - 1, ..., 0]. *)
Definition range_down (start : Z) : list Z :=
  reverse (range (start + 1)).

(** [x in l] *)
Definition contains (x : Z) (l : list Z) : bool :=
  existsb (Z.eqb x) l.

(** [len(set(l))] *)
Definition count_distinct (l : list Z) : Z :=
  Z.of_nat (size (list_to_set l : gset Z)).

(** [max(a, b)]: the first argument unless the second is larger. *)
Definition max (a b : Q) : Q :=
  if Qle_bool b a then a else b.

End Py.

(** ** Constants of the modules that the sources import *)

(** The names that [from .util import *] brings in. *)
Record Util := {
  NUM_CLASSES : Z;
  NOTE_OFF : Z;
  NO_EVENT : Z;
  BEATS_PER_BAR : Z;
  C_MAJOR_KEY : list Z;
  C_MAJOR_TONIC : Z
}.

(** The attributes of [rl_tuner_ops] that the interval code reads. *)
Record RlTunerOps := {
  OCTAVE : Q;
  FIFTH : Q;
  THIRD : Q;
  SIXTH : Q;
  SECOND : Q;
  FOURTH : Q;
  SEVENTH : Q;
  REST_INTERVAL : Q;
  HOLD_INTERVAL : Q;
  REST_INTERVAL_AFTER_THIRD_OR_FIFTH : Q;
  HOLD_INTERVAL_AFTER_THIRD_OR_FIFTH : Q;
  IN_KEY_THIRD : Q;
  IN_KEY_FIFTH : Q
}.

(** ** Objects, exceptions and methods *)

Record Env := {
  observation_space : Z;
  action_space : Z;
  composition_length : Z;
  composition : option (list Z);
  beat : option Z;
  num_notes : option Z
}.

Inductive exn :=
| AttributeError (name : string)
| IndexError
| UnboundLocalError (name : string)
| TypeError.

Inductive result (A : Type) :=
| Ok (a : A)
| Raise (e : exn).
Arguments Ok {A} a.
Arguments Raise {A} e.

Definition M (A : Type) : Type := Env -> result A * Env.

Definition ret {A} (a : A) : M A := fun self => (Ok a, self).

Definition raise {A} (e : exn) : M A := fun self => (Raise e, self).

Definition bind {A B} (c : M A) (k : A -> M B) : M B :=
  fun self =>
    match c self with
    | (Ok a, self') => k a self'
    | (Raise e, self') => (Raise e, self')
    end.

Notation "x <- c ;; k" := (bind c (fun x => k))
  (at level 100, c at next level, right associativity).
Notation "c ;; k" := (bind c (fun _ => k))
  (at level 100, right associativity).

(** Reading an attribute; [name] is only for the exception. *)
Definition getattr {A} (name : string) (field : Env -> option A) : M A :=
  fun self =>
    match field self with
    | Some v => (Ok v, self)
    | None => (Raise (AttributeError name), self)
    end.

Definition self_composition : M (list Z) := getattr "composition" composition.
Definition self_beat : M Z := getattr "beat" beat.
Definition self_num_notes : M Z := getattr "num_notes" num_notes.
Definition self_composition_length : M Z :=
  fun self => (Ok (composition_length self), self).

Definition set_composition (l : list Z) : M unit :=
  fun self =>
    (Ok tt, {| observation_space := observation_space self;
               action_space := action_space self;
               composition_length := composition_length self;
               composition := Some l;
               beat := beat self;
               num_notes := num_notes self |}).

Definition set_beat (b : Z) : M unit :=
  fun self =>
    (Ok tt, {| observation_space := observation_space self;
               action_space := action_space self;
               composition_length := composition_length self;
               composition := composition self;
               beat := Some b;
               num_notes := num_notes self |}).

(** [l[i]] inside a method. *)
Definition item (l : list Z) (i : Z) : M Z :=
  match Py.index l i with
  | Some x => ret x
  | None => raise IndexError
  end.

(** ** Loops *)

(** What one pass through a loop body decides. *)
Inductive flow (S R : Type) :=
| Continue (s : S)
| Break (s : S)
| Return (r : R).
Arguments Continue {S R} s.
Arguments Break {S R} s.
Arguments Return {S R} r.

(** How a [for] loop ends: the items ran out (an [else] clause runs), the
    body broke out, or the body returned from the method. *)
Inductive loop_exit (S R : Type) :=
| Exhausted (s : S)
| Broke (s : S)
| Returned (r : R).
Arguments Exhausted {S R} s.
Arguments Broke {S R} s.
Arguments Returned {S R} r.

Fixpoint for_in {I S R} (items : list I) (body : I -> S -> M (flow S R))
    (s : S) : M (loop_exit S R) :=
  match items with
  | [] => ret (Exhausted s)
  | i :: rest =>
      f <- body i s ;;
      match f with
      | Continue s' => for_in rest body s'
      | Break s' => ret (Broke s')
      | Return r => ret (Returned r)
      end
  end.

(** The loop variables when the loop is left without a [return]. *)
Definition loop_vars {S} (x : loop_exit S False) : S :=
  match x with
  | Exhausted s => s
  | Broke s => s
  | Returned r => match r with end
  end.

(** ** [music_env.py] *)

(** What [_step] returns: the observation, the reward, the done flag and the
    (empty) info dictionary. *)
Definition step_output : Type := Z * Q * bool * unit.

Module MusicEnv.
Section Methods.
Variable u : Util.

Definition __init__ : Env :=
  {| observation_space := NUM_CLASSES u;
     action_space := NUM_CLASSES u;
     composition_length := 64;
     composition := None;
     beat := None;
     num_notes := None |}.

Definition _step (action : Z) : M step_output :=
  comp <- self_composition ;;
  set_composition (comp ++ [action]) ;;
  b <- self_beat ;;
  set_beat (b + 1) ;;
  b' <- self_beat ;;
  n <- self_composition_length ;;
  ret (action, 0%Q, b' =? n, tt).

(** [drawn] is the value that [random.randint(0, NUM_CLASSES - 1)]
    returns. *)
Definition _reset (drawn : Z) : M Z :=
  set_composition [] ;;
  set_beat 0 ;;
  let state := drawn in
  ret state.

End Methods.
End MusicEnv.

(** ** [music_theory_env.py] *)

(** The variables of the backward scan of [detect_repeating_notes]. *)
Record repeats := {
  num_repeated : Z;
  contains_held_notes : bool;
  contains_breaks : bool
}.

Module MusicTheoryEnv.
Section Methods.
Variable u : Util.
Variable rl_tuner_ops : RlTunerOps.

Definition reward_key (action : Z) (penalty_amount : Q) (key : list Z) : M Q :=
  ret (if negb (Py.contains action key) then penalty_amount else 0%Q).

(** The loop of [detect_repeating_notes]; the current action, at the last
    index, is not visited. *)
Definition scan_repeats (action : Z) : M repeats :=
  comp <- self_composition ;;
  x <- for_in (R := False) (Py.range_down (Py.len comp - 2))
    (fun i s =>
       c1 <- self_composition ;; x1 <- item c1 i ;;
       if x1 =? action then
         ret (Continue {| num_repeated := num_repeated s + 1;
                          contains_held_notes := contains_held_notes s;
                          contains_breaks := contains_breaks s |})
       else
       c2 <- self_composition ;; x2 <- item c2 i ;;
       if x2 =? NOTE_OFF u then
         ret (Continue {| num_repeated := num_repeated s;
                          contains_held_notes := contains_held_notes s;
                          contains_breaks := true |})
       else
       c3 <- self_composition ;; x3 <- item c3 i ;;
       if x3 =? NO_EVENT u then
         ret (Continue {| num_repeated := num_repeated s;
                          contains_held_notes := true;
                          contains_breaks := contains_breaks s |})
       else ret (Break s))
    {| num_repeated := 0;
       contains_held_notes := false;
       contains_breaks := false |} ;;
  ret (loop_vars x).

(** The branches after the loop; a branch whose inner test fails falls
    through to the final [return False]. *)
Definition excessive (action : Z) (s : repeats) : bool :=
  if (action =? NOTE_OFF u) && (num_repeated s >? 1) then true
  else if negb (contains_held_notes s) && negb (contains_breaks s) then
    (if num_repeated s >? 4 then true else false)
  else if contains_held_notes s || contains_breaks s then
    (if num_repeated s >? 6 then true else false)
  else
    (if num_repeated s >? 8 then true else false).

Definition detect_repeating_notes (action : Z) : M bool :=
  s <- scan_repeats action ;;
  ret (excessive action s).

Definition reward_non_repeating (action : Z) : M Q :=
  r <- detect_repeating_notes action ;;
  if negb r then ret (1 # 10)%Q else ret 0%Q.

Definition reward_tonic (action tonic_note : Z) (reward_amount : Q) : M Q :=
  n <- self_num_notes ;;
  let first_note_of_final_bar := n - 4 in
  b1 <- self_beat ;;
  b2 <- self_beat ;;
  if (b1 =? 0) || (b2 =? first_note_of_final_bar) then
    (if action =? tonic_note then ret reward_amount else ret 0%Q)
  else
  b3 <- self_beat ;;
  if b3 =? first_note_of_final_bar + 1 then
    (if action =? NO_EVENT u then ret reward_amount else ret 0%Q)
  else
  b4 <- self_beat ;;
  if b4 >? first_note_of_final_bar + 1 then
    (if (action =? NO_EVENT u) || (action =? NOTE_OFF u)
     then ret reward_amount else ret 0%Q)
  else ret 0%Q.

Definition detect_last_motif (composition : list Z) (bar_length : Z)
    : M (option (list Z) * Z) :=
  if Py.len composition <? bar_length then ret (None, 0) else
  let last_bar := Py.slice_from composition (- bar_length) in
  let actual_notes :=
    filter (fun a => a <> NO_EVENT u /\ a <> NOTE_OFF u) last_bar in
  let num_unique_notes := Py.count_distinct actual_notes in
  if num_unique_notes >=? 3 then ret (Some last_bar, num_unique_notes)
  else ret (None, num_unique_notes).

Definition reward_motif (action : Z) (reward_amount : Q) : M Q :=
  comp <- self_composition ;;
  r <- detect_last_motif comp (BEATS_PER_BAR u) ;;
  let '(motif, num_notes_in_motif) := r in
  match motif with
  | Some _ =>
      let motif_complexity_bonus :=
        Py.max (inject_Z (num_notes_in_motif - 3) * (3 # 10))%Q 0%Q in
      ret (reward_amount + motif_complexity_bonus)%Q
  | None => ret 0%Q
  end.

Definition detect_repeated_motif (action : Z) (bar_length : Z)
    : M (bool * option (list Z)) :=
  comp <- self_composition ;;
  if Py.len comp <? bar_length then ret (false, None) else
  comp' <- self_composition ;;
  r <- detect_last_motif comp' bar_length ;;
  match fst r with
  | None => ret (false, None)
  | Some motif =>
      comp'' <- self_composition ;;
      let prev_composition := Py.slice_to comp'' (- (bar_length - 1) - 1) in
      x <- for_in
        (Py.range (Py.len prev_composition - Py.len motif + 1))
        (fun i _ =>
           y <- for_in (R := False) (Py.range (Py.len motif))
             (fun j _ =>
                a <- item prev_composition (i + j) ;;
                b <- item motif j ;;
                if negb (a =? b) then ret (Break tt) else ret (Continue tt))
             tt ;;
           match y with
           | Exhausted _ => ret (Return (true, Some motif))
           | _ => ret (Continue tt)
           end)
        tt ;;
      match x with
      | Returned found => ret found
      | _ => ret (false, None)
      end
  end.

Definition reward_repeated_motif (action : Z) (bar_length : Z)
    (reward_amount : Q) : M Q :=
  r <- detect_repeated_motif action bar_length ;;
  let '(is_repeated, motif) := r in
  if is_repeated then
    match motif with
    | Some m =>
        let actual_notes :=
          filter (fun a => a <> NO_EVENT u /\ a <> NOTE_OFF u) m in
        let num_notes_in_motif := Py.count_distinct actual_notes in
        let motif_complexity_bonus :=
          Py.max (inject_Z (num_notes_in_motif - 3)) 0%Q in
        ret (reward_amount + motif_complexity_bonus)%Q
    | None => raise TypeError
    end
  else ret 0%Q.

Definition _step (action : Z) : M step_output :=
  r <- MusicEnv._step action ;;
  let '(state, reward, done, info) := r in
  t <- reward_tonic action (C_MAJOR_TONIC u) 3%Q ;;
  let reward := (reward + t)%Q in
  k <- reward_key action (-1)%Q (C_MAJOR_KEY u) ;;
  let reward := (reward + k)%Q in
  n <- reward_non_repeating action ;;
  let reward := (reward + n)%Q in
  m <- reward_motif action 3%Q ;;
  let reward := (reward + m)%Q in
  p <- reward_repeated_motif action (BEATS_PER_BAR u) 4%Q ;;
  let reward := (reward + p)%Q in
  ret (state, reward, done, info).

(** A local variable that is bound on some paths only. *)
Definition local (name : string) (v : option (list Z)) : M (list Z) :=
  match v with
  | Some l => ret l
  | None => raise (UnboundLocalError name)
  end.

(** [prev_note in first or prev_note in second] *)
Definition in_either (prev_note : Z) (name1 : string) (first : option (list Z))
    (name2 : string) (second : option (list Z)) : M bool :=
  l1 <- local name1 first ;;
  if Py.contains prev_note l1 then ret true else
  l2 <- local name2 second ;;
  ret (Py.contains prev_note l2).

(** The [while] loop of [detect_sequential_interval]. [k] is
    [prev_note_index + 1]: the test [prev_note_index >= 0] is [k] being a
    successor, and the index read is its predecessor. *)
Fixpoint skip_non_notes (k : nat) (prev_note : Z) : M Z :=
  match k with
  | O => ret prev_note
  | S k' =>
      if (prev_note =? NO_EVENT u) || (prev_note =? NOTE_OFF u) then
        c <- self_composition ;;
        prev_note' <- item c (Z.of_nat k') ;;
        skip_non_notes k' prev_note'
      else ret prev_note
  end.

Definition detect_sequential_interval (action : Z) (key : option (list Z))
    : M (Q * Z * Z) :=
  c <- self_composition ;;
  prev_note <- item c (-2) ;;
  let c_major := match key with None => true | Some _ => false end in
  let key' := match key with None => C_MAJOR_KEY u | Some k => k end in
  let c_notes := match key with None => Some [2; 14; 26] | Some _ => None end in
  let g_notes := match key with None => Some [9; 21; 33] | Some _ => None end in
  let e_notes := match key with None => Some [6; 18; 30] | Some _ => None end in
  let tonic_notes :=
    match key with None => Some [2; 14; 26] | Some _ => None end in
  let fifth_notes :=
    match key with None => Some [9; 21; 33] | Some _ => None end in
  c' <- self_composition ;;
  let prev_note_index := Py.len c' - 2 in
  prev_note <- skip_non_notes (Z.to_nat (prev_note_index + 1)) prev_note ;;
  if (prev_note =? NOTE_OFF u) || (prev_note =? NO_EVENT u) then
    ret (0%Q, action, prev_note)
  else
  if action =? NO_EVENT u then
    strong <- in_either prev_note "tonic_notes" tonic_notes
                        "fifth_notes" fifth_notes ;;
    if strong
    then ret (HOLD_INTERVAL_AFTER_THIRD_OR_FIFTH rl_tuner_ops, action, prev_note)
    else ret (HOLD_INTERVAL rl_tuner_ops, action, prev_note)
  else if action =? NOTE_OFF u then
    strong <- in_either prev_note "tonic_notes" tonic_notes
                        "fifth_notes" fifth_notes ;;
    if strong
    then ret (REST_INTERVAL_AFTER_THIRD_OR_FIFTH rl_tuner_ops, action, prev_note)
    else ret (REST_INTERVAL rl_tuner_ops, action, prev_note)
  else
  let interval := inject_Z (Z.abs (action - prev_note)) in
  in_key_fifth <-
    (if c_major && Qeq_bool interval (FIFTH rl_tuner_ops)
     then in_either prev_note "c_notes" c_notes "g_notes" g_notes
     else ret false) ;;
  if in_key_fifth then ret (IN_KEY_FIFTH rl_tuner_ops, action, prev_note) else
  in_key_third <-
    (if c_major && Qeq_bool interval (THIRD rl_tuner_ops)
     then in_either prev_note "c_notes" c_notes "e_notes" e_notes
     else ret false) ;;
  if in_key_third then ret (IN_KEY_THIRD rl_tuner_ops, action, prev_note) else
  ret (interval, action, prev_note).

Definition reward_preferred_intervals (action : Z) (scaler : Q)
    (key : option (list Z)) : M Q :=
  r <- detect_sequential_interval action key ;;
  let interval := fst (fst r) in
  if Qeq_bool interval 0 then ret 0%Q else
  let reward := 0%Q in
  let reward :=
    if Qeq_bool interval (REST_INTERVAL rl_tuner_ops)
    then (5 # 100)%Q else reward in
  let reward :=
    if Qeq_bool interval (HOLD_INTERVAL rl_tuner_ops)
    then (75 # 1000)%Q else reward in
  let reward :=
    if Qeq_bool interval (REST_INTERVAL_AFTER_THIRD_OR_FIFTH rl_tuner_ops)
    then (15 # 100)%Q else reward in
  let reward :=
    if Qeq_bool interval (HOLD_INTERVAL_AFTER_THIRD_OR_FIFTH rl_tuner_ops)
    then (3 # 10)%Q else reward in
  let reward :=
    if Qeq_bool interval (SEVENTH rl_tuner_ops)
    then (- (3 # 10))%Q else reward in
  let reward :=
    if negb (Qle_bool interval (OCTAVE rl_tuner_ops))
    then (- (1))%Q else reward in
  let reward :=
    if Qeq_bool interval (IN_KEY_FIFTH rl_tuner_ops)
    then (1 # 10)%Q else reward in
  let reward :=
    if Qeq_bool interval (IN_KEY_THIRD rl_tuner_ops)
    then (15 # 100)%Q else reward in
  let reward :=
    if Qeq_bool interval (THIRD rl_tuner_ops)
    then (9 # 100)%Q else reward in
  let reward :=
    if Qeq_bool interval (SECOND rl_tuner_ops)
    then (8 # 100)%Q else reward in
  let reward :=
    if Qeq_bool interval (FOURTH rl_tuner_ops)
    then (7 # 100)%Q else reward in
  let reward :=
    if Qeq_bool interval (SIXTH rl_tuner_ops)
    then (5 # 100)%Q else reward in
  let reward :=
    if Qeq_bool interval (FIFTH rl_tuner_ops)
    then (2 # 100)%Q else reward in
  ret (reward * scaler)%Q.

End Methods.
End MusicTheoryEnv.

(** ** A concrete vocabulary *)

(** Modelled from the spec: the constants of [util.py] and [rl_tuner_ops],
    which are not among the sources. The spec fixes the bar length (8), the
    key (C major over three octaves) and the intervals (a perfect fifth is 7
    semitones, a major third 4); the codes are those of Magenta's RL Tuner,
    which the class names as its source and whose pitch codes [2; 14; 26]
    for C, [9; 21; 33] for G and [6; 18; 30] for E the interval code spells
    out: 0 is note-off, 1 is no-event, and pitches start at 2. *)
Definition magenta_util : Util :=
  {| NUM_CLASSES := 38;
     NOTE_OFF := 0;
     NO_EVENT := 1;
     BEATS_PER_BAR := 8;
     C_MAJOR_KEY := [0; 1; 2; 4; 6; 7; 9; 11; 13; 14; 16; 18; 19; 21; 23; 25;
                     26; 28; 30; 31; 33; 35; 37];
     C_MAJOR_TONIC := 14 |}.

Definition magenta_ops : RlTunerOps :=
  {| OCTAVE := 12;
     FIFTH := 7;
     THIRD := 4;
     SIXTH := 9;
     SECOND := 2;
     FOURTH := 5;
     SEVENTH := 11;
     REST_INTERVAL := - (1);
     HOLD_INTERVAL := - (15 # 10);
     REST_INTERVAL_AFTER_THIRD_OR_FIFTH := - (2);
     HOLD_INTERVAL_AFTER_THIRD_OR_FIFTH := - (25 # 10);
     IN_KEY_THIRD := - (3);
     IN_KEY_FIFTH := - (5) |}%Q.

(** An object whose [composition] and [beat] have been assigned; the other
    attributes are those of [__init__], and [num_notes] is as given. *)
Definition env_with (u : Util) (comp : list Z) (b : Z) (n : option Z) : Env :=
  {| observation_space := NUM_CLASSES u;
     action_space := NUM_CLASSES u;
     composition_length := 64;
     composition := Some comp;
     beat := Some b;
     num_notes := n |}.

(** ** Vocabulary of the statements *)

(** [c] returns [a] on [self] and leaves the object as it was. *)
Definition returns {A} (c : M A) (self : Env) (a : A) : Prop :=
  c self = (Ok a, self).

(** [c] never changes the object, whether it returns or raises. *)
Definition readonly {A} (c : M A) : Prop :=
  forall self, snd (c self) = self.

(** A [for] loop whose body neither raises nor touches the object. *)
Fixpoint for_pure {I S R} (items : list I) (body : I -> S -> flow S R)
    (s : S) : loop_exit S R :=
  match items with
  | [] => Exhausted s
  | i :: rest =>
      match body i s with
      | Continue s' => for_pure rest body s'
      | Break s' => Broke s'
      | Return r => Returned r
      end
  end.

(** A sounded pitch: neither a hold nor a rest. *)
Definition sounded (u : Util) (a : Z) : Prop :=
  a <> NO_EVENT u /\ a <> NOTE_OFF u.

Definition non_note (u : Util) (a : Z) : Prop :=
  a = NO_EVENT u \/ a = NOTE_OFF u.

(** [d] is the number of distinct sounded codes of [w]. *)
Definition distinct_sounded (u : Util) (w : list Z) (d : Z) : Prop :=
  exists codes : list Z,
    NoDup codes /\
    (forall x, x ∈ codes <-> x ∈ w /\ sounded u x) /\
    d = Py.len codes.

(** [w] occurs in [l] as a block of adjacent elements. *)
Definition occurs_in (w l : list Z) : Prop :=
  exists before after, l = before ++ w ++ after.

(** The beat counter agrees with the composition. *)
Definition beat_is_len (self : Env) : Prop :=
  exists comp, composition self = Some comp /\ beat self = Some (Py.len comp).

(** The branches of [detect_repeating_notes] with the final [else] (more
    than 8 repeats) taken out. *)
Definition excessive_without_else (u : Util) (action : Z) (s : repeats) : bool :=
  if (action =? NOTE_OFF u) && (num_repeated s >? 1) then true
  else if negb (contains_held_notes s) && negb (contains_breaks s) then
    (if num_repeated s >? 4 then true else false)
  else if contains_held_notes s || contains_breaks s then
    (if num_repeated s >? 6 then true else false)
  else false.

Definition detect_repeating_notes_without_else (u : Util) (action : Z) : M bool :=
  s <- MusicTheoryEnv.scan_repeats u action ;;
  ret (excessive_without_else u action s).

(** The step loop of the harness: one [_step] per action, in order. *)
Fixpoint episode (u : Util) (actions : list Z) : M (list step_output) :=
  match actions with
  | [] => ret []
  | action :: rest =>
      out <- MusicTheoryEnv._step u action ;;
      outs <- episode u rest ;;
      ret (out :: outs)
  end.

Definition done_flag (out : step_output) : bool := snd (fst out).

(** The body of the backward scan at an element [x]. *)
Definition scan_body (u : Util) (action x : Z) (s : repeats)
    : flow repeats False :=
  if x =? action then
    Continue {| num_repeated := num_repeated s + 1;
                contains_held_notes := contains_held_notes s;
                contains_breaks := contains_breaks s |}
  else if x =? NOTE_OFF u then
    Continue {| num_repeated := num_repeated s;
                contains_held_notes := contains_held_notes s;
                contains_breaks := true |}
  else if x =? NO_EVENT u then
    Continue {| num_repeated := num_repeated s;
                contains_held_notes := true;
                contains_breaks := contains_breaks s |}
  else Break s.

(** The backward scan over a composition in hand. *)
Definition scan_of (u : Util) (action : Z) (comp : list Z) : repeats :=
  loop_vars
    (for_pure (Py.range_down (Py.len comp - 2))
       (fun i s =>
          match Py.index comp i with
          | Some x => scan_body u action x s
          | None => Break s
          end)
       {| num_repeated := 0;
          contains_held_notes := false;
          contains_breaks := false |}).

(** The comparison of the motif with the earlier composition at offset
    [i], and the search over the offsets. *)
Definition compare_at (prev motif : list Z) (i j : Z) (_ : unit)
    : flow unit False :=
  match Py.index prev (i + j), Py.index motif j with
  | Some a, Some b => if negb (a =? b) then Break tt else Continue tt
  | _, _ => Break tt
  end.

Definition try_offset (prev motif : list Z) (i : Z) (_ : unit)
    : flow unit (bool * option (list Z)) :=
  match for_pure (Py.range (Py.len motif)) (compare_at prev motif i) tt with
  | Exhausted _ => Return (true, Some motif)
  | _ => Continue tt
  end.

Definition search (prev motif : list Z) : bool * option (list Z) :=
  match for_pure (Py.range (Py.len prev - Py.len motif + 1))
          (try_offset prev motif) tt with
  | Returned found => found
  | _ => (false, None)
  end.

(** [detect_last_motif] on a composition in hand. *)
Definition last_motif_of (u : Util) (composition : list Z) (bar_length : Z)
    : option (list Z) * Z :=
  if Py.len composition <? bar_length then (None, 0) else
  let last_bar := Py.slice_from composition (- bar_length) in
  let d :=
    Py.count_distinct
      (filter (fun a => a <> NO_EVENT u /\ a <> NOTE_OFF u) last_bar) in
  if d >=? 3 then (Some last_bar, d) else (None, d).

(** [detect_repeated_motif] on a composition in hand. *)
Definition repeated_motif_of (u : Util) (comp : list Z) (bar_length : Z)
    : bool * option (list Z) :=
  if Py.len comp <? bar_length then (false, None) else
  match fst (last_motif_of u comp bar_length) with
  | None => (false, None)
  | Some motif => search (Py.slice_to comp (- (bar_length - 1) - 1)) motif
  end.

(** The last [bar_length] elements of a composition, and the composition
    with them left out. *)
Definition trailing_window (comp : list Z) (bar_length : Z) : list Z :=
  drop (length comp - Z.to_nat bar_length) comp.

Definition prior_segment (comp : list Z) (bar_length : Z) : list Z :=
  take (length comp - Z.to_nat bar_length) comp.

(** The category that [detect_sequential_interval] gives to a sounded
    action after a sounded previous note. *)
Definition sounded_category (ops : RlTunerOps) (key : option (list Z))
    (prev_note action : Z) : Q :=
  let interval := inject_Z (Z.abs (action - prev_note)) in
  match key with
  | Some _ => interval
  | None =>
      if Qeq_bool interval (FIFTH ops)
         && (Py.contains prev_note [2; 14; 26]
             || Py.contains prev_note [9; 21; 33])
      then IN_KEY_FIFTH ops
      else if Qeq_bool interval (THIRD ops)
              && (Py.contains prev_note [2; 14; 26]
                  || Py.contains prev_note [6; 18; 30])
      then IN_KEY_THIRD ops
      else interval
  end.

(** The object after [MusicEnv._step]: the action appended, the beat
    advanced. *)
Definition stepped (self : Env) (comp : list Z) (b action : Z) : Env :=
  {| observation_space := observation_space self;
     action_space := action_space self;
     composition_length := composition_length self;
     composition := Some (comp ++ [action]);
     beat := Some (b + 1);
     num_notes := num_notes self |}.

(** [reward_tonic] with the test [self.beat == 0] taken out of its first
    condition. *)
Definition reward_tonic_without_beat_0 (u : Util) (action tonic_note : Z)
    (reward_amount : Q) : M Q :=
  n <- self_num_notes ;;
  let first_note_of_final_bar := n - 4 in
  b2 <- self_beat ;;
  if b2 =? first_note_of_final_bar then
    (if action =? tonic_note then ret reward_amount else ret 0%Q)
  else
  b3 <- self_beat ;;
  if b3 =? first_note_of_final_bar + 1 then
    (if action =? NO_EVENT u then ret reward_amount else ret 0%Q)
  else
  b4 <- self_beat ;;
  if b4 >? first_note_of_final_bar + 1 then
    (if (action =? NO_EVENT u) || (action =? NOTE_OFF u)
     then ret reward_amount else ret 0%Q)
  else ret 0%Q.

(** The backward scan as a walk over the visited elements, nearest first. *)
Fixpoint scan_list (u : Util) (action : Z) (visited : list Z) (s : repeats)
    : repeats :=
  match visited with
  | [] => s
  | x :: rest =>
      match scan_body u action x s with
      | Continue s' => scan_list u action rest s'
      | Break s' => s'
      | Return r => match r with end
      end
  end.

Definition no_repeats : repeats :=
  {| num_repeated := 0;
     contains_held_notes := false;
     contains_breaks := false |}.

(** The number of elements of a list equal to [a]. *)
Definition occurrences (a : Z) (l : list Z) : Z :=
  Py.len (filter (fun x => x = a) l).

(** The observation and the reward of a step. *)
Definition observation (out : step_output) : Z := fst (fst (fst out)).
Definition reward (out : step_output) : Q := snd (fst (fst out)).

(** The constants that [reward_preferred_intervals] compares with after the
    test for leaps are at most an octave, and an octave is not negative. *)
Definition within_octave (ops : RlTunerOps) : Prop :=
  (0 <= OCTAVE ops)%Q /\
  Forall (fun c => (c <= OCTAVE ops)%Q)
    [IN_KEY_FIFTH ops; IN_KEY_THIRD ops; THIRD ops; SECOND ops; FOURTH ops;
     SIXTH ops; FIFTH ops].

(** The objects that the sources can build: the one of [__init__], and
    what [_reset] and the two [_step] methods make of an object, whether
    the call returns or raises. *)
Inductive built (u : Util) : Env -> Prop :=
| built_init : built u (MusicEnv.__init__ u)
| built_reset (drawn : Z) (self : Env) :
    built u self -> built u (snd (MusicEnv._reset drawn self))
| built_base_step (action : Z) (self : Env) :
    built u self -> built u (snd (MusicEnv._step action self))
| built_step (action : Z) (self : Env) :
    built u self -> built u (snd (MusicTheoryEnv._step u action self)).

(** The two tests on the previous note in the in-key cases of
    [detect_sequential_interval]: a C or a G, and a C or an E. *)
Definition c_or_g (prev_note : Z) : bool :=
  Py.contains prev_note [2; 14; 26] || Py.contains prev_note [9; 21; 33].

Definition c_or_e (prev_note : Z) : bool :=
  Py.contains prev_note [2; 14; 26] || Py.contains prev_note [6; 18; 30].

(** * Properties *)

(** ** Methods that return, methods that only read *)

Lemma returns_ret {A} (a : A) self : returns (ret a) self a.
Proof. reflexivity. Qed.

Lemma returns_bind {A B} (c : M A) (k : A -> M B) self a b :
  returns c self a -> returns (k a) self b -> returns (x <- c ;; k x) self b.
Proof. unfold returns, bind. intros -> Hk. exact Hk. Qed.

Lemma bind_returns {A B} (c : M A) (k : A -> M B) self a :
  returns c self a -> (x <- c ;; k x) self = k a self.
Proof. unfold returns, bind. intros ->. reflexivity. Qed.

Lemma returns_getattr {A} name (field : Env -> option A) self v :
  field self = Some v -> returns (getattr name field) self v.
Proof. unfold returns, getattr. intros ->. reflexivity. Qed.

Lemma returns_item l i x self :
  Py.index l i = Some x -> returns (item l i) self x.
Proof. unfold returns, item. intros ->. reflexivity. Qed.

Lemma returns_inj {A} (c : M A) self a b :
  returns c self a -> returns c self b -> a = b.
Proof. unfold returns. intros -> [=]. assumption. Qed.

Lemma readonly_ret {A} (a : A) : readonly (ret a).
Proof. intros self. reflexivity. Qed.

Lemma readonly_raise {A} e : readonly (@raise A e).
Proof. intros self. reflexivity. Qed.

Lemma readonly_bind {A B} (c : M A) (k : A -> M B) :
  readonly c -> (forall a, readonly (k a)) -> readonly (x <- c ;; k x).
Proof.
  intros Hc Hk self. unfold bind.
  specialize (Hc self). destruct (c self) as [[a|e] self']; simpl in Hc; subst.
  - apply Hk.
  - reflexivity.
Qed.

Lemma readonly_getattr {A} name (field : Env -> option A) :
  readonly (getattr name field).
Proof. intros self. unfold getattr. destruct (field self); reflexivity. Qed.

Lemma readonly_composition_length : readonly self_composition_length.
Proof. intros self. reflexivity. Qed.

Lemma readonly_item l i : readonly (item l i).
Proof. unfold item. destruct (Py.index l i); [apply readonly_ret | apply readonly_raise]. Qed.

Lemma readonly_for_in {I S R} (items : list I) (body : I -> S -> M (flow S R)) :
  (forall i s, readonly (body i s)) -> forall s, readonly (for_in items body s).
Proof.
  intros Hbody. induction items as [|i rest IH]; intros s; simpl.
  - apply readonly_ret.
  - apply readonly_bind; [apply Hbody|].
    intros [s'|s'|r]; [apply IH | apply readonly_ret | apply readonly_ret].
Qed.

(** One step of a proof that a method only reads. *)
Ltac readonly_step :=
  match goal with
  | |- readonly (bind _ _) => apply readonly_bind; [|intros ?]
  | |- readonly (ret _) => apply readonly_ret
  | |- readonly (raise _) => apply readonly_raise
  | |- readonly (getattr _ _) => apply readonly_getattr
  | |- readonly self_composition => apply readonly_getattr
  | |- readonly self_beat => apply readonly_getattr
  | |- readonly self_num_notes => apply readonly_getattr
  | |- readonly self_composition_length => apply readonly_composition_length
  | |- readonly (item _ _) => apply readonly_item
  | |- readonly (for_in _ _ _) => apply readonly_for_in; intros ? ?
  | |- readonly (if ?b then _ else _) => destruct b
  | |- readonly (match ?x with _ => _ end) => destruct x
  | |- readonly (let '(_, _) := ?x in _) => destruct x
  | |- readonly (let _ := _ in _) => cbv zeta
  end.

Ltac readonly_tac := repeat readonly_step.

(** A loop whose body returns at every item is the pure loop. *)
Lemma for_in_pure {I S R} (items : list I) (body : I -> S -> M (flow S R))
    (f : I -> S -> flow S R) self :
  (forall i s, i ∈ items -> returns (body i s) self (f i s)) ->
  forall s, returns (for_in items body s) self (for_pure items f s).
Proof.
  induction items as [|i rest IH]; intros Hbody s; simpl.
  - apply returns_ret.
  - eapply returns_bind; [apply Hbody; left|].
    destruct (f i s) as [s'|s'|r]; [|apply returns_ret..].
    apply IH. intros j t Hj. apply Hbody. right. exact Hj.
Qed.

(** ** Python lists *)

Lemma index_in_range {A} (l : list A) (i : Z) :
  0 <= i < Py.len l -> Py.index l i = l !! Z.to_nat i /\ is_Some (l !! Z.to_nat i).
Proof.
  unfold Py.index, Py.len. intros Hi.
  destruct (Z.ltb_spec i 0) as [?|_]; [lia|].
  split; [reflexivity|]. apply lookup_lt_is_Some. lia.
Qed.

Lemma elem_of_range (n i : Z) : i ∈ Py.range n <-> 0 <= i < n.
Proof.
  unfold Py.range. rewrite list_elem_of_fmap. split.
  - intros (k & -> & Hk). apply elem_of_seq in Hk. lia.
  - intros Hi. exists (Z.to_nat i). split; [lia|]. apply elem_of_seq. lia.
Qed.

Lemma elem_of_range_down (start i : Z) :
  i ∈ Py.range_down start <-> 0 <= i <= start.
Proof.
  unfold Py.range_down. rewrite elem_of_reverse, elem_of_range. lia.
Qed.

(** ** The backward scan *)

Section Scan.
Variable u : Util.

Lemma scan_repeats_returns action self comp :
  composition self = Some comp ->
  returns (MusicTheoryEnv.scan_repeats u action) self (scan_of u action comp).
Proof.
  intros Hcomp. unfold MusicTheoryEnv.scan_repeats, scan_of.
  eapply returns_bind; [apply returns_getattr, Hcomp|].
  eapply returns_bind; [|apply returns_ret].
  apply for_in_pure. intros i s Hi.
  apply elem_of_range_down in Hi.
  destruct (index_in_range comp i) as [Hidx [x Hx]]; [lia|].
  rewrite Hidx, Hx. unfold scan_body.
  eapply returns_bind; [apply returns_getattr, Hcomp|].
  eapply returns_bind; [apply returns_item; rewrite Hidx; exact Hx|].
  destruct (x =? action); [apply returns_ret|].
  eapply returns_bind; [apply returns_getattr, Hcomp|].
  eapply returns_bind; [apply returns_item; rewrite Hidx; exact Hx|].
  destruct (x =? NOTE_OFF u); [apply returns_ret|].
  eapply returns_bind; [apply returns_getattr, Hcomp|].
  eapply returns_bind; [apply returns_item; rewrite Hidx; exact Hx|].
  destruct (x =? NO_EVENT u); apply returns_ret.
Qed.

Lemma detect_repeating_notes_returns action self comp :
  composition self = Some comp ->
  returns (MusicTheoryEnv.detect_repeating_notes u action) self
    (MusicTheoryEnv.excessive u action (scan_of u action comp)).
Proof.
  intros Hcomp. unfold MusicTheoryEnv.detect_repeating_notes.
  eapply returns_bind; [apply scan_repeats_returns, Hcomp|apply returns_ret].
Qed.

End Scan.

(** ** Excessive repetition *)

(** C9: the final branch of [detect_repeating_notes] (excessive above 8
    repeats) is never taken: its guard, the failure of both "no hold and no
    rest" and "a hold or a rest", is false for every pair of flags, and on
    every object and action the method with that branch taken out does what
    the method does. *)
Theorem final_branch_unreachable (u : Util) (action : Z) (self : Env) :
  (forall s : repeats,
     negb (negb (contains_held_notes s) && negb (contains_breaks s))
     && negb (contains_held_notes s || contains_breaks s) = false) /\
  MusicTheoryEnv.detect_repeating_notes u action self
  = detect_repeating_notes_without_else u action self.
Proof.
  split.
  - intros [n [|] [|]]; reflexivity.
  - unfold MusicTheoryEnv.detect_repeating_notes,
      detect_repeating_notes_without_else, bind.
    destruct (MusicTheoryEnv.scan_repeats u action self) as [[s|e] self'];
      [|reflexivity].
    unfold ret. do 2 f_equal.
    unfold MusicTheoryEnv.excessive, excessive_without_else.
    destruct ((action =? NOTE_OFF u) && (num_repeated s >? 1)); [reflexivity|].
    destruct (contains_held_notes s), (contains_breaks s); reflexivity.
Qed.

(** C3, as the code has it: the scan leaves the newly appended action out,
    so "more than 4 repeats" needs six equal entries. With composition
    [5,5,5,5,5,5] and action 5 the method returns true; with five or fewer
    entries, all 5, it returns false (5 being a pitch, not the note-off
    code). *)
Theorem repeats_boundary (u : Util) (self : Env) :
  NOTE_OFF u <> 5 ->
  (composition self = Some [5; 5; 5; 5; 5; 5] ->
   returns (MusicTheoryEnv.detect_repeating_notes u 5) self true) /\
  (forall k : nat, (k <= 5)%nat ->
   composition self = Some (replicate k 5) ->
   returns (MusicTheoryEnv.detect_repeating_notes u 5) self false).
Proof.
  intros Hoff.
  assert (Hne : (5 =? NOTE_OFF u) = false) by (apply Z.eqb_neq; congruence).
  split.
  - intros Hcomp.
    assert (E : MusicTheoryEnv.excessive u 5
                  (scan_of u 5 [5; 5; 5; 5; 5; 5]) = true)
      by (unfold MusicTheoryEnv.excessive; rewrite Hne; reflexivity).
    rewrite <- E. apply detect_repeating_notes_returns, Hcomp.
  - intros k Hk Hcomp.
    assert (E : MusicTheoryEnv.excessive u 5
                  (scan_of u 5 (replicate k 5)) = false).
    { unfold MusicTheoryEnv.excessive. rewrite Hne.
      do 6 (destruct k as [|k]; [reflexivity|]). lia. }
    rewrite <- E. apply detect_repeating_notes_returns, Hcomp.
Qed.

Lemma repeats_boundary_witness :
  NOTE_OFF magenta_util <> 5 /\
  returns (MusicTheoryEnv.detect_repeating_notes magenta_util 5)
    (env_with magenta_util [5; 5; 5; 5; 5; 5] 6 None) true /\
  returns (MusicTheoryEnv.detect_repeating_notes magenta_util 5)
    (env_with magenta_util [5; 5; 5; 5] 4 None) false.
Proof.
  assert (H : NOTE_OFF magenta_util <> 5) by discriminate.
  split; [exact H|].
  destruct (repeats_boundary magenta_util
              (env_with magenta_util [5; 5; 5; 5; 5; 5] 6 None) H) as [Hsix _].
  destruct (repeats_boundary magenta_util
              (env_with magenta_util [5; 5; 5; 5] 4 None) H) as [_ Hfew].
  split; [apply Hsix; reflexivity|].
  apply (Hfew 4%nat); [lia | reflexivity].
Defined.

(** C3, as stated, fails: with composition [5,5,5,5,5] and action 5 the
    method returns false, not true. *)
Lemma five_entries_not_excessive :
  returns (MusicTheoryEnv.detect_repeating_notes magenta_util 5)
    (env_with magenta_util [5; 5; 5; 5; 5] 5 None) false /\
  ~ returns (MusicTheoryEnv.detect_repeating_notes magenta_util 5)
      (env_with magenta_util [5; 5; 5; 5; 5] 5 None) true.
Proof.
  split; [reflexivity|].
  intros H. discriminate H.
Qed.

(** ** Slices *)

Lemma slice_from_last {A} (l : list A) (n : Z) :
  0 < n <= Py.len l ->
  Py.slice_from l (- n) = drop (Z.to_nat (Py.len l - n)) l.
Proof.
  intros Hn. unfold Py.slice_from, Py.clamp.
  destruct (Z.ltb_spec (- n) 0); [|lia].
  do 2 f_equal. lia.
Qed.

Lemma slice_to_last {A} (l : list A) (n : Z) :
  0 < n <= Py.len l ->
  Py.slice_to l (- (n - 1) - 1) = take (Z.to_nat (Py.len l - n)) l.
Proof.
  intros Hn. unfold Py.slice_to, Py.clamp.
  destruct (Z.ltb_spec (- (n - 1) - 1) 0); [|lia].
  do 2 f_equal. lia.
Qed.

Lemma len_drop_last {A} (l : list A) (n : Z) :
  0 < n <= Py.len l -> Py.len (drop (Z.to_nat (Py.len l - n)) l) = n.
Proof. unfold Py.len. intros Hn. rewrite length_drop. lia. Qed.

(** [len(set(...))] counts the distinct sounded codes. *)
Lemma count_distinct_sounded (u : Util) (w : list Z) :
  distinct_sounded u w
    (Py.count_distinct
       (filter (fun a => a <> NO_EVENT u /\ a <> NOTE_OFF u) w)).
Proof.
  set (notes := filter (fun a => a <> NO_EVENT u /\ a <> NOTE_OFF u) w).
  exists (elements (list_to_set notes : gset Z)). split; [|split].
  - apply NoDup_elements.
  - intros x. rewrite elem_of_elements, elem_of_list_to_set.
    unfold notes. rewrite list_elem_of_filter. unfold sounded. tauto.
  - reflexivity.
Qed.

(** The count does not depend on the list that witnesses it. *)
Lemma distinct_sounded_unique (u : Util) (w : list Z) (d d' : Z) :
  distinct_sounded u w d -> distinct_sounded u w d' -> d = d'.
Proof.
  intros (l & Hl & Hin & ->) (l' & Hl' & Hin' & ->).
  unfold Py.len. f_equal. apply Permutation_length.
  apply NoDup_Permutation; [assumption..|].
  intros x. rewrite Hin, Hin'. reflexivity.
Qed.

(** ** The last motif *)

(** C2: for a positive bar length, [detect_last_motif] returns (none, 0) on
    a composition shorter than the bar; otherwise, with [w] the last
    [bar_length] elements and [d] the number of distinct codes of [w] that
    are neither NO_EVENT nor NOTE_OFF, it returns (w, d) when d >= 3 and
    (none, d) when d < 3. In either case the object, and with it the
    composition, is left as it was. *)
Theorem detect_last_motif_spec (u : Util) (composition : list Z)
    (bar_length : Z) (self : Env) :
  0 < bar_length ->
  exists motif d,
    returns (MusicTheoryEnv.detect_last_motif u composition bar_length) self
      (motif, d) /\
    (Py.len composition < bar_length -> motif = None /\ d = 0) /\
    (bar_length <= Py.len composition ->
     exists before w,
       composition = before ++ w /\
       Py.len w = bar_length /\
       distinct_sounded u w d /\
       (3 <= d -> motif = Some w) /\
       (d < 3 -> motif = None)).
Proof.
  intros Hpos. unfold MusicTheoryEnv.detect_last_motif.
  destruct (Z.ltb_spec (Py.len composition) bar_length) as [Hshort|Hlong].
  - exists None, 0. split; [apply returns_ret|]. split; [tauto|lia].
  - rewrite slice_from_last by lia.
    set (w := drop (Z.to_nat (Py.len composition - bar_length)) composition).
    set (d := Py.count_distinct _).
    assert (Hw : exists before, composition = before ++ w /\ Py.len w = bar_length).
    { exists (take (Z.to_nat (Py.len composition - bar_length)) composition).
      split; [symmetry; apply take_drop | apply len_drop_last; lia]. }
    destruct Hw as (before & Hsplit & Hlen).
    assert (Hd : distinct_sounded u w d) by apply count_distinct_sounded.
    destruct (Z.geb_spec d 3) as [Hge|Hlt].
    + exists (Some w), d. split; [apply returns_ret|]. split; [lia|].
      intros _. exists before, w.
      split; [exact Hsplit|]. split; [exact Hlen|]. split; [exact Hd|].
      split; [reflexivity | lia].
    + exists None, d. split; [apply returns_ret|]. split; [lia|].
      intros _. exists before, w.
      split; [exact Hsplit|]. split; [exact Hlen|]. split; [exact Hd|].
      split; [lia | reflexivity].
Qed.

Lemma detect_last_motif_spec_witness :
  0 < 3 /\
  exists motif d,
    returns (MusicTheoryEnv.detect_last_motif magenta_util [2; 4; 1; 6] 3)
      (env_with magenta_util [2; 4; 1; 6] 4 None) (motif, d) /\
    (Py.len [2; 4; 1; 6] < 3 -> motif = None /\ d = 0) /\
    (3 <= Py.len [2; 4; 1; 6] ->
     exists before w,
       [2; 4; 1; 6] = before ++ w /\
       Py.len w = 3 /\
       distinct_sounded magenta_util w d /\
       (3 <= d -> motif = Some w) /\
       (d < 3 -> motif = None)).
Proof.
  split; [lia|].
  apply (detect_last_motif_spec magenta_util [2; 4; 1; 6] 3
           (env_with magenta_util [2; 4; 1; 6] 4 None)).
  lia.
Defined.

(** ** The search for an earlier occurrence *)

Lemma detect_last_motif_returns (u : Util) composition bar_length self :
  returns (MusicTheoryEnv.detect_last_motif u composition bar_length) self
    (last_motif_of u composition bar_length).
Proof.
  unfold MusicTheoryEnv.detect_last_motif, last_motif_of.
  destruct (Py.len composition <? bar_length); [apply returns_ret|].
  cbv zeta. destruct (_ >=? 3); apply returns_ret.
Qed.

Lemma compare_loop_returns (prev motif : list Z) (i : Z) self :
  0 <= i -> i + Py.len motif <= Py.len prev ->
  returns
    (for_in (R := False) (Py.range (Py.len motif))
       (fun j _ =>
          a <- item prev (i + j) ;;
          b <- item motif j ;;
          if negb (a =? b) then ret (Break tt) else ret (Continue tt))
       tt)
    self
    (for_pure (Py.range (Py.len motif)) (compare_at prev motif i) tt).
Proof.
  intros Hi Hfit. apply for_in_pure. intros j [] Hj.
  apply elem_of_range in Hj.
  destruct (index_in_range prev (i + j)) as [Hp [a Ha]]; [lia|].
  destruct (index_in_range motif j) as [Hm [b Hb]]; [lia|].
  unfold compare_at. rewrite Hp, Ha, Hm, Hb.
  eapply returns_bind; [apply returns_item; rewrite Hp; exact Ha|].
  eapply returns_bind; [apply returns_item; rewrite Hm; exact Hb|].
  destruct (negb (a =? b)); apply returns_ret.
Qed.

Lemma search_loop_returns (prev motif : list Z) self :
  returns
    (for_in (Py.range (Py.len prev - Py.len motif + 1))
       (fun i _ =>
          y <- for_in (R := False) (Py.range (Py.len motif))
            (fun j _ =>
               a <- item prev (i + j) ;;
               b <- item motif j ;;
               if negb (a =? b) then ret (Break tt) else ret (Continue tt))
            tt ;;
          match y with
          | Exhausted _ => ret (Return (true, Some motif))
          | _ => ret (Continue tt)
          end)
       tt)
    self
    (for_pure (Py.range (Py.len prev - Py.len motif + 1))
       (try_offset prev motif) tt).
Proof.
  apply for_in_pure. intros i [] Hi. apply elem_of_range in Hi.
  eapply returns_bind; [apply compare_loop_returns; lia|].
  unfold try_offset.
  destruct (for_pure _ (compare_at prev motif i) tt); apply returns_ret.
Qed.

Lemma detect_repeated_motif_returns (u : Util) action bar_length self comp :
  composition self = Some comp ->
  returns (MusicTheoryEnv.detect_repeated_motif u action bar_length) self
    (repeated_motif_of u comp bar_length).
Proof.
  intros Hcomp. unfold MusicTheoryEnv.detect_repeated_motif, repeated_motif_of.
  eapply returns_bind; [apply returns_getattr, Hcomp|].
  destruct (Py.len comp <? bar_length); [apply returns_ret|].
  eapply returns_bind; [apply returns_getattr, Hcomp|].
  eapply returns_bind; [apply detect_last_motif_returns|].
  destruct (fst (last_motif_of u comp bar_length)) as [motif|];
    [|apply returns_ret].
  eapply returns_bind; [apply returns_getattr, Hcomp|].
  eapply returns_bind; [apply search_loop_returns|].
  unfold search. destruct (for_pure _ (try_offset _ motif) tt); apply returns_ret.
Qed.

(** The comparison runs to its end exactly at the offsets where the motif
    sits. *)
Lemma compare_continue (prev motif : list Z) (i j : Z) :
  0 <= i -> 0 <= j ->
  compare_at prev motif i j tt = Continue tt <->
  exists a, prev !! Z.to_nat (i + j) = Some a /\ motif !! Z.to_nat j = Some a.
Proof.
  intros Hi Hj. unfold compare_at, Py.index.
  destruct (Z.ltb_spec (i + j) 0); [lia|].
  destruct (Z.ltb_spec j 0); [lia|].
  destruct (prev !! Z.to_nat (i + j)) as [a|], (motif !! Z.to_nat j) as [b|];
    try (split; [discriminate | intros (? & ? & ?); discriminate]).
  destruct (Z.eqb_spec a b) as [->|Hne]; simpl.
  - split; [eauto | reflexivity].
  - split; [discriminate | intros (c & [= ->] & [= ->]); congruence].
Qed.

Lemma compare_loop_exhausted (items : list Z) (prev motif : list Z) (i : Z) :
  for_pure items (compare_at prev motif i) tt = Exhausted tt <->
  forall j, j ∈ items -> compare_at prev motif i j tt = Continue tt.
Proof.
  induction items as [|j rest IH]; simpl.
  - split; [intros _ j Hj; inversion Hj | reflexivity].
  - destruct (compare_at prev motif i j tt) as [[]|[]|[]] eqn:E.
    + rewrite IH. split.
      * intros H k Hk. apply elem_of_cons in Hk as [->|Hk]; auto.
      * intros H k Hk. apply H. right. exact Hk.
    + split; [discriminate|]. intros H.
      specialize (H j ltac:(left)). congruence.
Qed.

Lemma block_at (prev motif : list Z) (i : nat) :
  (forall j : nat, (j < length motif)%nat ->
     exists a, prev !! (i + j)%nat = Some a /\ motif !! j = Some a) <->
  take (length motif) (drop i prev) = motif.
Proof.
  split.
  - intros H. apply list_eq. intros j.
    destruct (decide (j < length motif)%nat) as [Hj|Hj].
    + rewrite lookup_take_lt, lookup_drop by exact Hj.
      destruct (H j Hj) as (a & -> & ->). reflexivity.
    + rewrite lookup_take_ge by lia. symmetry. apply lookup_ge_None. lia.
  - intros E j Hj.
    destruct (lookup_lt_is_Some_2 motif j Hj) as [a Ha].
    exists a. split; [|exact Ha].
    rewrite <- E in Ha. rewrite lookup_take_lt, lookup_drop in Ha by exact Hj.
    exact Ha.
Qed.

Lemma occurs_in_offset (prev motif : list Z) :
  occurs_in motif prev <->
  exists i : nat, (i + length motif <= length prev)%nat /\
                  take (length motif) (drop i prev) = motif.
Proof.
  split.
  - intros (before & after & ->). exists (length before). split.
    + rewrite !length_app. lia.
    + rewrite drop_app_length. apply take_app_length.
  - intros (i & _ & E). exists (take i prev), (drop (length motif) (drop i prev)).
    rewrite <- E at 1. rewrite take_drop, take_drop. reflexivity.
Qed.

Lemma compare_loop_block (prev motif : list Z) (i : Z) :
  0 <= i ->
  for_pure (Py.range (Py.len motif)) (compare_at prev motif i) tt = Exhausted tt
  <-> take (length motif) (drop (Z.to_nat i) prev) = motif.
Proof.
  intros Hi. rewrite compare_loop_exhausted, <- block_at. split.
  - intros H j Hj.
    destruct (proj1 (compare_continue prev motif i (Z.of_nat j) Hi ltac:(lia)))
      as (a & Ha & Hb).
    { apply H, elem_of_range. unfold Py.len. lia. }
    exists a. rewrite Nat2Z.id in Hb. split; [|exact Hb].
    rewrite <- Ha. f_equal. lia.
  - intros H j Hj. apply elem_of_range in Hj. unfold Py.len in Hj.
    apply compare_continue; [lia..|].
    destruct (H (Z.to_nat j) ltac:(lia)) as (a & Ha & Hb).
    exists a. split; [|exact Hb]. rewrite <- Ha. f_equal. lia.
Qed.

Lemma search_loop_found (items : list Z) (prev motif : list Z) :
  (exists i, i ∈ items /\
     for_pure (Py.range (Py.len motif)) (compare_at prev motif i) tt
     = Exhausted tt) ->
  for_pure items (try_offset prev motif) tt = Returned (true, Some motif).
Proof.
  induction items as [|k rest IH]; intros (i & Hi & E); [inversion Hi|].
  simpl. unfold try_offset at 1.
  destruct (for_pure _ (compare_at prev motif k) tt) as [[]|[]|[]] eqn:Ek;
    [reflexivity|].
  apply IH. exists i. split; [|exact E].
  apply elem_of_cons in Hi as [->|Hi]; [congruence | exact Hi].
Qed.

Lemma search_loop_not_found (items : list Z) (prev motif : list Z) :
  (forall i, i ∈ items ->
     for_pure (Py.range (Py.len motif)) (compare_at prev motif i) tt
     <> Exhausted tt) ->
  for_pure items (try_offset prev motif) tt = Exhausted tt.
Proof.
  induction items as [|k rest IH]; intros H; [reflexivity|].
  simpl. unfold try_offset at 1.
  destruct (for_pure _ (compare_at prev motif k) tt) as [[]|[]|[]] eqn:Ek.
  - exfalso. apply (H k); [left | exact Ek].
  - apply IH. intros i Hi. apply H. right. exact Hi.
Qed.

Lemma search_occurs (prev motif : list Z) :
  occurs_in motif prev -> search prev motif = (true, Some motif).
Proof.
  intros Hocc. apply occurs_in_offset in Hocc as (i & Hfit & E).
  unfold search. rewrite search_loop_found; [reflexivity|].
  exists (Z.of_nat i). split.
  - apply elem_of_range. unfold Py.len. lia.
  - apply compare_loop_block; [lia|]. rewrite Nat2Z.id. exact E.
Qed.

Lemma search_absent (prev motif : list Z) :
  ~ occurs_in motif prev -> search prev motif = (false, None).
Proof.
  intros Hno. unfold search. rewrite search_loop_not_found; [reflexivity|].
  intros i Hi E. apply elem_of_range in Hi. unfold Py.len in Hi.
  apply compare_loop_block in E; [|lia].
  apply Hno, occurs_in_offset. exists (Z.to_nat i). split; [lia | exact E].
Qed.

Lemma last_motif_of_window (u : Util) (comp : list Z) (bar_length : Z) m :
  0 < bar_length <= Py.len comp ->
  fst (last_motif_of u comp bar_length) = Some m ->
  m = trailing_window comp bar_length.
Proof.
  intros Hbl. unfold last_motif_of.
  destruct (Z.ltb_spec (Py.len comp) bar_length); [lia|].
  cbv zeta. destruct (_ >=? 3); [|discriminate].
  simpl. intros [= <-]. rewrite slice_from_last by lia.
  unfold trailing_window, Py.len. f_equal. lia.
Qed.

(** ** The repeated motif *)

(** C1, for a positive bar length: [detect_repeated_motif] returns (false,
    none) when the composition is shorter than the bar or when
    [detect_last_motif] finds no motif; otherwise it returns (true, w), with
    [w] the last [bar_length] elements, exactly when [w] occurs as a block
    in the composition without its last [bar_length] elements, and (false,
    none) when it does not. The object is left as it was. *)
Theorem detect_repeated_motif_spec (u : Util) (action bar_length : Z)
    (self : Env) (comp : list Z) :
  composition self = Some comp ->
  0 < bar_length ->
  exists found motif,
    returns (MusicTheoryEnv.detect_repeated_motif u action bar_length) self
      (found, motif) /\
    (Py.len comp < bar_length -> found = false /\ motif = None) /\
    (bar_length <= Py.len comp ->
     forall m d,
       returns (MusicTheoryEnv.detect_last_motif u comp bar_length) self (m, d) ->
       (m = None -> found = false /\ motif = None) /\
       (m <> None ->
        let w := trailing_window comp bar_length in
        let prior := prior_segment comp bar_length in
        (occurs_in w prior -> found = true /\ motif = Some w) /\
        (~ occurs_in w prior -> found = false /\ motif = None))).
Proof.
  intros Hcomp Hpos.
  pose proof (detect_repeated_motif_returns u action bar_length self comp Hcomp)
    as Hret.
  destruct (repeated_motif_of u comp bar_length) as [found motif] eqn:E.
  exists found, motif. split; [exact Hret|].
  unfold repeated_motif_of in E.
  destruct (Z.ltb_spec (Py.len comp) bar_length) as [Hshort|Hlong].
  - injection E as <- <-. split; [tauto | lia].
  - split; [lia|]. intros _ m d Hm.
    pose proof (returns_inj _ _ _ _ Hm
                  (detect_last_motif_returns u comp bar_length self)) as Hlast.
    rewrite <- Hlast in E. simpl in E.
    destruct m as [w|].
    + split; [discriminate|]. intros _.
      assert (Hw : w = trailing_window comp bar_length).
      { apply (last_motif_of_window u); [lia|]. rewrite <- Hlast. reflexivity. }
      assert (Hp : Py.slice_to comp (- (bar_length - 1) - 1)
                   = prior_segment comp bar_length).
      { rewrite slice_to_last by lia.
        unfold prior_segment, Py.len. f_equal. lia. }
      rewrite Hp, Hw in E. cbv zeta. split; intros Hocc.
      * rewrite (search_occurs _ _ Hocc) in E. injection E as <- <-. tauto.
      * rewrite (search_absent _ _ Hocc) in E. injection E as <- <-. tauto.
    + injection E as <- <-. split; [tauto | congruence].
Qed.

Lemma detect_repeated_motif_spec_witness :
  composition (env_with magenta_util [2; 4; 6; 7; 2; 4; 6] 7 None)
  = Some [2; 4; 6; 7; 2; 4; 6] /\
  0 < 3 /\
  returns (MusicTheoryEnv.detect_repeated_motif magenta_util 6 3)
    (env_with magenta_util [2; 4; 6; 7; 2; 4; 6] 7 None)
    (true, Some [2; 4; 6]).
Proof.
  split; [reflexivity|]. split; [lia|].
  destruct (detect_repeated_motif_spec magenta_util 6 3
              (env_with magenta_util [2; 4; 6; 7; 2; 4; 6] 7 None)
              [2; 4; 6; 7; 2; 4; 6] eq_refl ltac:(lia))
    as (found & motif & Hret & _ & Hlong).
  destruct (Hlong ltac:(vm_compute; discriminate) (Some [2; 4; 6]) 3 eq_refl)
    as [_ Hsome].
  assert (Hne : Some [2; 4; 6] <> (None : option (list Z))) by discriminate.
  destruct (Hsome Hne) as [Hocc _].
  assert (Hin : occurs_in (trailing_window [2; 4; 6; 7; 2; 4; 6] 3)
                  (prior_segment [2; 4; 6; 7; 2; 4; 6] 3))
    by (exists [], [7]; reflexivity).
  destruct (Hocc Hin) as [-> ->]. exact Hret.
Defined.

(** C1, as stated for every bar length, fails at bar length 0: the
    composition [2,4,6] is not shorter than the bar, [detect_last_motif]
    finds a motif, and the trailing window of 0 elements occurs in the
    composition with its final 0 elements excluded, yet the method answers
    (false, none). *)
Lemma zero_bar_length_not_found :
  let comp := [2; 4; 6] in
  let self := env_with magenta_util comp 3 None in
  ~ Py.len comp < 0 /\
  returns (MusicTheoryEnv.detect_last_motif magenta_util comp 0) self
    (Some [2; 4; 6], 3) /\
  occurs_in (trailing_window comp 0) (prior_segment comp 0) /\
  returns (MusicTheoryEnv.detect_repeated_motif magenta_util 6 0) self
    (false, None).
Proof.
  cbv zeta. split; [vm_compute; discriminate|].
  split; [reflexivity|]. split; [|reflexivity].
  exists [], [2; 4; 6]. reflexivity.
Qed.

(** ** The tonic reward *)

Lemma reward_tonic_returns (u : Util) (action tonic_note : Z) (amount : Q)
    (self : Env) (n b : Z) :
  num_notes self = Some n ->
  beat self = Some b ->
  returns (MusicTheoryEnv.reward_tonic u action tonic_note amount) self
    (if (b =? 0) || (b =? n - 4) then
       (if action =? tonic_note then amount else 0%Q)
     else if b =? n - 4 + 1 then
       (if action =? NO_EVENT u then amount else 0%Q)
     else if b >? n - 4 + 1 then
       (if (action =? NO_EVENT u) || (action =? NOTE_OFF u)
        then amount else 0%Q)
     else 0%Q).
Proof.
  intros Hn Hb. unfold MusicTheoryEnv.reward_tonic.
  eapply returns_bind; [apply returns_getattr, Hn|].
  eapply returns_bind; [apply returns_getattr, Hb|].
  eapply returns_bind; [apply returns_getattr, Hb|].
  destruct ((b =? 0) || (b =? n - 4)).
  { destruct (action =? tonic_note); apply returns_ret. }
  eapply returns_bind; [apply returns_getattr, Hb|].
  destruct (b =? n - 4 + 1).
  { destruct (action =? NO_EVENT u); apply returns_ret. }
  eapply returns_bind; [apply returns_getattr, Hb|].
  destruct (b >? n - 4 + 1); [|apply returns_ret].
  destruct ((action =? NO_EVENT u) || (action =? NOTE_OFF u)); apply returns_ret.
Qed.

(** Once [num_notes] has a value: with the composition length 64 and
    [num_notes] equal to it, [reward_tonic] returns 3 at beat 0 for the tonic
    and 0 at beat 0 for any other action; 3 at beat 60 (= 64 - 4) for the
    tonic, at beat 61 for a hold, and at every later beat for a hold or a
    rest; and 0 in all other cases. *)
Theorem reward_tonic_default (u : Util) (action b : Z) (self : Env) :
  composition_length self = 64 ->
  num_notes self = Some (composition_length self) ->
  beat self = Some b ->
  let total_notes := composition_length self in
  let tonic := C_MAJOR_TONIC u in
  exists r : Q,
    returns (MusicTheoryEnv.reward_tonic u action tonic 3%Q) self r /\
    (b = 0 -> action = tonic -> r = 3%Q) /\
    (b = 0 -> action <> tonic -> r = 0%Q) /\
    (b = total_notes - 4 -> action = tonic -> r = 3%Q) /\
    (b = total_notes - 3 -> action = NO_EVENT u -> r = 3%Q) /\
    (b > total_notes - 3 -> action = NO_EVENT u \/ action = NOTE_OFF u ->
     r = 3%Q) /\
    (~ (b = 0 /\ action = tonic) ->
     ~ (b = total_notes - 4 /\ action = tonic) ->
     ~ (b = total_notes - 3 /\ action = NO_EVENT u) ->
     ~ (b > total_notes - 3 /\ (action = NO_EVENT u \/ action = NOTE_OFF u)) ->
     r = 0%Q).
Proof.
  intros Hlen Hn Hb. cbv zeta. rewrite Hlen in *.
  eexists. split; [apply (reward_tonic_returns u _ _ _ _ 64 b Hn Hb)|].
  destruct (Z.eqb_spec b 0) as [Hb0|Hb0];
    destruct (Z.eqb_spec b (64 - 4)) as [Hb60|Hb60];
    destruct (Z.eqb_spec b (64 - 4 + 1)) as [Hb61|Hb61];
    destruct (Z.gtb_spec b (64 - 4 + 1)) as [Hgt|Hgt];
    try lia; simpl;
    destruct (Z.eqb_spec action (C_MAJOR_TONIC u)) as [Ht|Ht];
    destruct (Z.eqb_spec action (NO_EVENT u)) as [Hh|Hh];
    destruct (Z.eqb_spec action (NOTE_OFF u)) as [Hr|Hr];
    simpl; repeat split; intros; try reflexivity; try lia; try tauto.
Qed.

Lemma reward_tonic_default_witness :
  composition_length (env_with magenta_util [] 0 (Some 64)) = 64 /\
  num_notes (env_with magenta_util [] 0 (Some 64))
  = Some (composition_length (env_with magenta_util [] 0 (Some 64))) /\
  beat (env_with magenta_util [] 0 (Some 64)) = Some 0 /\
  returns
    (MusicTheoryEnv.reward_tonic magenta_util 14 (C_MAJOR_TONIC magenta_util) 3%Q)
    (env_with magenta_util [] 0 (Some 64)) 3%Q.
Proof.
  repeat (split; [reflexivity|]).
  destruct (reward_tonic_default magenta_util 14 0
              (env_with magenta_util [] 0 (Some 64)) eq_refl eq_refl eq_refl)
    as (r & Hret & Hfirst & _).
  pose proof (Hfirst eq_refl eq_refl) as E. subst r. exact Hret.
Defined.

(** ** The melodic interval *)

Lemma sounded_eqb (u : Util) (a : Z) :
  sounded u a -> (a =? NO_EVENT u) = false /\ (a =? NOTE_OFF u) = false.
Proof. intros [Hh Hr]. split; apply Z.eqb_neq; assumption. Qed.

Lemma non_note_eqb (u : Util) (a : Z) :
  non_note u a -> (a =? NO_EVENT u) || (a =? NOTE_OFF u) = true.
Proof.
  intros [->| ->]; rewrite Z.eqb_refl; [reflexivity | apply orb_true_r].
Qed.

Lemma index_before_last {A} (pre : list A) (a b : A) :
  Py.index (pre ++ [a; b]) (-2) = Some a.
Proof.
  unfold Py.index, Py.len. rewrite length_app. simpl.
  destruct (Z.ltb_spec (Z.of_nat (length pre + 2) + -2) 0); [lia|].
  replace (Z.to_nat (Z.of_nat (length pre + 2) + -2)) with (length pre) by lia.
  apply list_lookup_middle. reflexivity.
Qed.

Lemma interval_sounded (u : Util) (ops : RlTunerOps) (action : Z)
    (key : option (list Z)) (self : Env) (pre : list Z) (a : Z) :
  composition self = Some (pre ++ [a; action]) ->
  sounded u a -> sounded u action ->
  returns (MusicTheoryEnv.detect_sequential_interval u ops action key) self
    (sounded_category ops key a action, action, a).
Proof.
  intros Hcomp Ha Hact.
  destruct (sounded_eqb u a Ha) as [Hah Har].
  destruct (sounded_eqb u action Hact) as [Hh Hr].
  unfold MusicTheoryEnv.detect_sequential_interval.
  eapply returns_bind; [apply returns_getattr, Hcomp|].
  eapply returns_bind; [apply returns_item, index_before_last|].
  eapply returns_bind; [apply returns_getattr, Hcomp|].
  cbv zeta.
  replace (Z.to_nat (Py.len (pre ++ [a; action]) - 2 + 1))
    with (S (length pre))
    by (unfold Py.len; rewrite length_app; simpl; lia).
  eapply returns_bind.
  { simpl. rewrite Hah, Har. apply returns_ret. }
  rewrite Hah, Har, Hh, Hr.
  unfold returns, sounded_category.
  destruct key as [k|];
    cbv beta iota zeta delta
      [bind ret MusicTheoryEnv.in_either MusicTheoryEnv.local];
    [reflexivity|].
  set (fifth := Qeq_bool (inject_Z (Z.abs (action - a))) (FIFTH ops)).
  set (third := Qeq_bool (inject_Z (Z.abs (action - a))) (THIRD ops)).
  set (is_c := Py.contains a [2; 14; 26]).
  set (is_g := Py.contains a [9; 21; 33]).
  set (is_e := Py.contains a [6; 18; 30]).
  destruct fifth, third, is_c, is_g, is_e; reflexivity.
Qed.

(** C5, as stated, fails: from G (9) up to D (16) the category is the
    in-key fifth, because the previous note is a G; from D (16) down to G
    (9) it is the plain fifth, because the previous note is a D. *)
Lemma fifth_from_g_not_symmetric :
  sounded magenta_util 9 /\ sounded magenta_util 16 /\
  returns
    (MusicTheoryEnv.detect_sequential_interval magenta_util magenta_ops 16 None)
    (env_with magenta_util [9; 16] 2 None)
    (IN_KEY_FIFTH magenta_ops, 16, 9) /\
  returns
    (MusicTheoryEnv.detect_sequential_interval magenta_util magenta_ops 9 None)
    (env_with magenta_util [16; 9] 2 None)
    (FIFTH magenta_ops, 9, 16) /\
  ~ (IN_KEY_FIFTH magenta_ops == FIFTH magenta_ops)%Q.
Proof.
  split; [split; discriminate|]. split; [split; discriminate|].
  split; [reflexivity|]. split; [reflexivity|].
  intros H. vm_compute in H. discriminate H.
Qed.

(** With at least one element before the action, all of them holds or
    rests, the classifier returns the no-interval value 0. *)
Lemma skip_all_non_notes (u : Util) (self : Env) (comp : list Z) (k : nat)
    (prev_note : Z) :
  composition self = Some comp ->
  (k <= length comp)%nat ->
  (forall (i : nat) y, (i < k)%nat -> comp !! i = Some y -> non_note u y) ->
  non_note u prev_note ->
  exists p, returns (MusicTheoryEnv.skip_non_notes u k prev_note) self p /\
            non_note u p.
Proof.
  intros Hcomp. revert prev_note.
  induction k as [|k IH]; intros prev_note Hk Hall Hprev; simpl.
  - exists prev_note. split; [apply returns_ret | exact Hprev].
  - rewrite (non_note_eqb u prev_note Hprev).
    destruct (index_in_range comp (Z.of_nat k)) as [Hidx [y Hy]];
      [unfold Py.len; lia|].
    rewrite Nat2Z.id in Hidx, Hy.
    destruct (IH y) as (p & Hp & Hnon);
      [lia | intros i z Hi; apply Hall; lia | apply (Hall k); [lia | exact Hy] |].
    exists p. split; [|exact Hnon].
    eapply returns_bind; [apply returns_getattr, Hcomp|].
    eapply returns_bind; [apply returns_item; rewrite Hidx; exact Hy|].
    exact Hp.
Qed.

Lemma interval_all_non_notes (u : Util) (ops : RlTunerOps) (action : Z)
    (key : option (list Z)) (self : Env) (pre : list Z) (x : Z) :
  composition self = Some (pre ++ [x; action]) ->
  (forall y, y ∈ pre ++ [x] -> non_note u y) ->
  exists p,
    returns (MusicTheoryEnv.detect_sequential_interval u ops action key) self
      (0%Q, action, p) /\
    non_note u p.
Proof.
  intros Hcomp Hall.
  assert (Hx : non_note u x) by (apply Hall, elem_of_app; right; left).
  destruct (skip_all_non_notes u self (pre ++ [x; action])
              (Z.to_nat (Py.len (pre ++ [x; action]) - 2 + 1)) x Hcomp)
    as (p & Hp & Hnon).
  { unfold Py.len. lia. }
  { intros i y Hi Hy. apply Hall.
    unfold Py.len in Hi. rewrite length_app in Hi. simpl in Hi.
    change (pre ++ [x; action]) with (pre ++ [x] ++ [action]) in Hy.
    rewrite app_assoc, lookup_app_l in Hy
      by (rewrite length_app; simpl; lia).
    eapply list_elem_of_lookup_2, Hy. }
  { exact Hx. }
  exists p. split; [|exact Hnon].
  unfold MusicTheoryEnv.detect_sequential_interval.
  eapply returns_bind; [apply returns_getattr, Hcomp|].
  eapply returns_bind; [apply returns_item, index_before_last|].
  eapply returns_bind; [apply returns_getattr, Hcomp|].
  cbv zeta. eapply returns_bind; [exact Hp|].
  rewrite orb_comm, (non_note_eqb u p Hnon). apply returns_ret.
Qed.

(** C6 at the composition that holds only the action: the read of the
    second-to-last element raises [IndexError], whatever the action and the
    key; the object is left as it was. *)
Theorem interval_on_first_note_raises (u : Util) (ops : RlTunerOps)
    (action : Z) (key : option (list Z)) (b : Z) (n : option Z) :
  MusicTheoryEnv.detect_sequential_interval u ops action key
    (env_with u [action] b n)
  = (Raise IndexError, env_with u [action] b n).
Proof. reflexivity. Qed.

(** ** The reward methods only read *)

Section Rewards.
Variable u : Util.

Lemma readonly_scan_repeats action :
  readonly (MusicTheoryEnv.scan_repeats u action).
Proof. unfold MusicTheoryEnv.scan_repeats. readonly_tac. Qed.

Lemma readonly_detect_repeating_notes action :
  readonly (MusicTheoryEnv.detect_repeating_notes u action).
Proof.
  unfold MusicTheoryEnv.detect_repeating_notes.
  apply readonly_bind; [apply readonly_scan_repeats | intros; apply readonly_ret].
Qed.

Lemma readonly_reward_non_repeating action :
  readonly (MusicTheoryEnv.reward_non_repeating u action).
Proof.
  unfold MusicTheoryEnv.reward_non_repeating.
  apply readonly_bind; [apply readonly_detect_repeating_notes|].
  intros r. readonly_tac.
Qed.

Lemma readonly_reward_key action penalty key :
  readonly (MusicTheoryEnv.reward_key action penalty key).
Proof. apply readonly_ret. Qed.

Lemma readonly_reward_tonic action tonic amount :
  readonly (MusicTheoryEnv.reward_tonic u action tonic amount).
Proof. unfold MusicTheoryEnv.reward_tonic. readonly_tac. Qed.

Lemma readonly_detect_last_motif composition bar_length :
  readonly (MusicTheoryEnv.detect_last_motif u composition bar_length).
Proof. unfold MusicTheoryEnv.detect_last_motif. readonly_tac. Qed.

Lemma readonly_reward_motif action amount :
  readonly (MusicTheoryEnv.reward_motif u action amount).
Proof.
  unfold MusicTheoryEnv.reward_motif.
  apply readonly_bind; [apply readonly_getattr | intros comp].
  apply readonly_bind; [apply readonly_detect_last_motif | intros [[m|] d]];
    apply readonly_ret.
Qed.

Lemma readonly_detect_repeated_motif action bar_length :
  readonly (MusicTheoryEnv.detect_repeated_motif u action bar_length).
Proof.
  unfold MusicTheoryEnv.detect_repeated_motif.
  apply readonly_bind; [apply readonly_getattr | intros comp].
  destruct (Py.len comp <? bar_length); [apply readonly_ret|].
  apply readonly_bind; [apply readonly_getattr | intros comp'].
  apply readonly_bind; [apply readonly_detect_last_motif | intros [[m|] d]];
    simpl; [|apply readonly_ret].
  readonly_tac.
Qed.

Lemma readonly_reward_repeated_motif action bar_length amount :
  readonly (MusicTheoryEnv.reward_repeated_motif u action bar_length amount).
Proof.
  unfold MusicTheoryEnv.reward_repeated_motif.
  apply readonly_bind; [apply readonly_detect_repeated_motif|].
  intros [[|] [m|]]; first [apply readonly_ret | apply readonly_raise].
Qed.

(** ** The reward methods return *)

Lemma reward_non_repeating_returns action self comp :
  composition self = Some comp ->
  exists r, returns (MusicTheoryEnv.reward_non_repeating u action) self r.
Proof.
  intros Hcomp. unfold MusicTheoryEnv.reward_non_repeating.
  destruct (MusicTheoryEnv.excessive u action (scan_of u action comp)) eqn:E.
  - exists 0%Q. eapply returns_bind;
      [apply detect_repeating_notes_returns, Hcomp|].
    rewrite E. apply returns_ret.
  - exists (1 # 10)%Q. eapply returns_bind;
      [apply detect_repeating_notes_returns, Hcomp|].
    rewrite E. apply returns_ret.
Qed.

Lemma reward_motif_returns action amount self comp :
  composition self = Some comp ->
  exists m, returns (MusicTheoryEnv.reward_motif u action amount) self m.
Proof.
  intros Hcomp. unfold MusicTheoryEnv.reward_motif.
  destruct (last_motif_of u comp (BEATS_PER_BAR u)) as [[w|] d] eqn:E.
  - eexists. eapply returns_bind; [apply returns_getattr, Hcomp|].
    eapply returns_bind; [apply detect_last_motif_returns|].
    rewrite E. apply returns_ret.
  - eexists. eapply returns_bind; [apply returns_getattr, Hcomp|].
    eapply returns_bind; [apply detect_last_motif_returns|].
    rewrite E. apply returns_ret.
Qed.

Lemma search_loop_cases (items : list Z) (prev motif : list Z) :
  for_pure items (try_offset prev motif) tt = Returned (true, Some motif) \/
  for_pure items (try_offset prev motif) tt = Exhausted tt.
Proof.
  induction items as [|i rest IH]; simpl; [right; reflexivity|].
  unfold try_offset at 1 3.
  destruct (for_pure _ (compare_at prev motif i) tt);
    [left; reflexivity | exact IH | exact IH].
Qed.

Lemma repeated_motif_of_cases comp bar_length :
  (exists w, repeated_motif_of u comp bar_length = (true, Some w)) \/
  repeated_motif_of u comp bar_length = (false, None).
Proof.
  unfold repeated_motif_of.
  destruct (Py.len comp <? bar_length); [right; reflexivity|].
  destruct (fst (last_motif_of u comp bar_length)) as [motif|];
    [|right; reflexivity].
  unfold search.
  destruct (search_loop_cases
              (Py.range (Py.len (Py.slice_to comp (- (bar_length - 1) - 1))
                         - Py.len motif + 1))
              (Py.slice_to comp (- (bar_length - 1) - 1)) motif) as [-> | ->].
  - left. exists motif. reflexivity.
  - right. reflexivity.
Qed.

Lemma reward_repeated_motif_returns action bar_length amount self comp :
  composition self = Some comp ->
  exists p,
    returns (MusicTheoryEnv.reward_repeated_motif u action bar_length amount)
      self p.
Proof.
  intros Hcomp. unfold MusicTheoryEnv.reward_repeated_motif.
  destruct (repeated_motif_of_cases comp bar_length) as [[w E]|E].
  - eexists. eapply returns_bind;
      [apply detect_repeated_motif_returns, Hcomp|].
    rewrite E. apply returns_ret.
  - eexists. eapply returns_bind;
      [apply detect_repeated_motif_returns, Hcomp|].
    rewrite E. apply returns_ret.
Qed.

End Rewards.

(** ** One step *)

Lemma music_env_step (action : Z) (self : Env) (comp : list Z) (b : Z) :
  composition self = Some comp ->
  beat self = Some b ->
  MusicEnv._step action self
  = (Ok (action, 0%Q, b + 1 =? composition_length self, tt),
     stepped self comp b action).
Proof.
  intros Hcomp Hb.
  unfold MusicEnv._step, bind, self_composition, self_beat, getattr.
  rewrite Hcomp. simpl. rewrite Hb. reflexivity.
Qed.

(** Once the base step is done, nothing changes the object any more. *)
Lemma step_final_state (u : Util) (action : Z) (self : Env) :
  snd (MusicTheoryEnv._step u action self) = snd (MusicEnv._step action self).
Proof.
  unfold MusicTheoryEnv._step. unfold bind at 1.
  destruct (MusicEnv._step action self) as [[[[[state reward] done] info]|e] s1];
    [|reflexivity].
  simpl snd at 2.
  apply (readonly_bind _ _ (readonly_reward_tonic u _ _ _)). intros t.
  apply (readonly_bind _ _ (readonly_reward_key _ _ _)). intros k.
  apply (readonly_bind _ _ (readonly_reward_non_repeating u _)). intros r.
  apply (readonly_bind _ _ (readonly_reward_motif u _ _)). intros m.
  apply (readonly_bind _ _ (readonly_reward_repeated_motif u _ _ _)). intros p.
  apply readonly_ret.
Qed.

(** With [composition], [beat] and [num_notes] assigned, a step returns:
    the five reward methods return on the stepped object, and the step adds
    their values up, in the order of the calls. *)
Lemma step_runs (u : Util) (action : Z) (self : Env) (comp : list Z)
    (b n : Z) :
  composition self = Some comp ->
  beat self = Some b ->
  num_notes self = Some n ->
  let self' := stepped self comp b action in
  exists t k r m p : Q,
    returns (MusicTheoryEnv.reward_tonic u action (C_MAJOR_TONIC u) 3%Q) self' t /\
    returns (MusicTheoryEnv.reward_key action (-1)%Q (C_MAJOR_KEY u)) self' k /\
    returns (MusicTheoryEnv.reward_non_repeating u action) self' r /\
    returns (MusicTheoryEnv.reward_motif u action 3%Q) self' m /\
    returns (MusicTheoryEnv.reward_repeated_motif u action (BEATS_PER_BAR u) 4%Q)
      self' p /\
    MusicTheoryEnv._step u action self
    = (Ok (action, (0 + t + k + r + m + p)%Q,
           b + 1 =? composition_length self, tt), self').
Proof.
  intros Hcomp Hb Hn self'.
  assert (Hcomp' : composition self' = Some (comp ++ [action])) by reflexivity.
  assert (Ht := reward_tonic_returns u action (C_MAJOR_TONIC u) 3%Q self' n
                  (b + 1) Hn eq_refl).
  destruct (reward_non_repeating_returns u action self' _ Hcomp') as [r Hr].
  destruct (reward_motif_returns u action 3%Q self' _ Hcomp') as [m Hm].
  destruct (reward_repeated_motif_returns u action (BEATS_PER_BAR u) 4%Q
              self' _ Hcomp') as [p Hp].
  assert (Hk : returns (MusicTheoryEnv.reward_key action (-1)%Q (C_MAJOR_KEY u))
                 self'
                 (if negb (Py.contains action (C_MAJOR_KEY u))
                  then (-1)%Q else 0%Q)) by reflexivity.
  eexists _, _, r, m, p.
  split; [exact Ht|]. split; [exact Hk|].
  split; [exact Hr|]. split; [exact Hm|]. split; [exact Hp|].
  unfold MusicTheoryEnv._step. unfold bind at 1.
  rewrite (music_env_step action self comp b Hcomp Hb). fold self'.
  rewrite (bind_returns _ _ _ _ Ht).
  rewrite (bind_returns _ _ _ _ Hk).
  rewrite (bind_returns _ _ _ _ Hr).
  rewrite (bind_returns _ _ _ _ Hm).
  rewrite (bind_returns _ _ _ _ Hp).
  reflexivity.
Qed.

(** Once [num_notes] has a value: with [composition] and [beat] assigned
    too, the reward that [_step] returns is the sum of [reward_key],
    [reward_non_repeating], [reward_tonic], [reward_motif] and
    [reward_repeated_motif], each taken on the object after the action has
    been appended and the beat advanced; nothing else is added,
    [reward_preferred_intervals] in particular. *)
Theorem step_reward_is_sum (u : Util) (action : Z) (self : Env)
    (comp : list Z) (b n : Z) :
  composition self = Some comp ->
  beat self = Some b ->
  num_notes self = Some n ->
  let self' := stepped self comp b action in
  exists (key_part non_repeating tonic motif repeated_motif reward : Q)
         (done : bool),
    returns (MusicTheoryEnv.reward_key action (-1)%Q (C_MAJOR_KEY u)) self'
      key_part /\
    returns (MusicTheoryEnv.reward_non_repeating u action) self'
      non_repeating /\
    returns (MusicTheoryEnv.reward_tonic u action (C_MAJOR_TONIC u) 3%Q) self'
      tonic /\
    returns (MusicTheoryEnv.reward_motif u action 3%Q) self' motif /\
    returns (MusicTheoryEnv.reward_repeated_motif u action (BEATS_PER_BAR u) 4%Q)
      self' repeated_motif /\
    MusicTheoryEnv._step u action self
    = (Ok (action, reward, done, tt), self') /\
    (reward == key_part + non_repeating + tonic + motif + repeated_motif)%Q.
Proof.
  intros Hcomp Hb Hn self'.
  destruct (step_runs u action self comp b n Hcomp Hb Hn)
    as (t & k & r & m & p & Ht & Hk & Hr & Hm & Hp & Hstep).
  exists k, r, t, m, p. eexists. eexists.
  split; [exact Hk|]. split; [exact Hr|]. split; [exact Ht|].
  split; [exact Hm|]. split; [exact Hp|]. split; [exact Hstep|].
  ring.
Qed.

Lemma step_reward_is_sum_witness :
  composition (env_with magenta_util [14] 1 (Some 64)) = Some [14] /\
  beat (env_with magenta_util [14] 1 (Some 64)) = Some 1 /\
  num_notes (env_with magenta_util [14] 1 (Some 64)) = Some 64 /\
  exists reward done,
    MusicTheoryEnv._step magenta_util 3 (env_with magenta_util [14] 1 (Some 64))
    = (Ok (3, reward, done, tt),
       stepped (env_with magenta_util [14] 1 (Some 64)) [14] 1 3).
Proof.
  repeat (split; [reflexivity|]).
  destruct (step_reward_is_sum magenta_util 3
              (env_with magenta_util [14] 1 (Some 64)) [14] 1 64
              eq_refl eq_refl eq_refl)
    as (k & r & t & m & p & reward & done & _ & _ & _ & _ & _ & Hstep & _).
  exists reward, done. exact Hstep.
Defined.

(** ** Episodes *)

Lemma episode_runs (u : Util) (actions : list Z) :
  forall (self : Env) (comp : list Z) (b n : Z),
    composition self = Some comp ->
    beat self = Some b ->
    num_notes self = Some n ->
    exists outs self',
      episode u actions self = (Ok outs, self') /\
      length outs = length actions /\
      composition self' = Some (comp ++ actions) /\
      beat self' = Some (b + Py.len actions) /\
      (forall (k : nat) out, outs !! k = Some out ->
         done_flag out = (b + Z.of_nat k + 1 =? composition_length self)).
Proof.
  induction actions as [|action rest IH]; intros self comp b n Hcomp Hb Hn.
  - exists [], self. split; [reflexivity|]. split; [reflexivity|].
    split; [rewrite app_nil_r; exact Hcomp|].
    split; [rewrite Hb; f_equal; unfold Py.len; simpl; lia|].
    intros k out Hk. inversion Hk.
  - destruct (step_runs u action self comp b n Hcomp Hb Hn)
      as (t & k & r & m & p & _ & _ & _ & _ & _ & Hstep).
    destruct (IH (stepped self comp b action) (comp ++ [action]) (b + 1) n
                eq_refl eq_refl Hn)
      as (outs & self' & Hrun & Hlen & Hcomp' & Hb' & Hdone).
    eexists (_ :: outs), self'.
    split.
    { simpl. unfold bind at 1. rewrite Hstep.
      unfold bind at 1. rewrite Hrun. reflexivity. }
    split; [simpl; rewrite Hlen; reflexivity|].
    split; [rewrite Hcomp', <- app_assoc; reflexivity|].
    split; [rewrite Hb'; f_equal; unfold Py.len; simpl length; lia|].
    intros [|j] out Hout.
    + injection Hout as <-. unfold done_flag. simpl. f_equal. lia.
    + rewrite (Hdone j out Hout). simpl. f_equal. lia.
Qed.

(** Once [num_notes] has a value: after a reset, every step of an episode
    returns, and the done flag of a step is true exactly when the beat
    counter after the increment of that step, which is the number of steps
    taken so far, equals the composition length (64 after [__init__]); it is
    false at every other step, earlier ones included. *)
Theorem done_exactly_at_composition_length (u : Util) (drawn : Z)
    (actions : list Z) (self0 : Env) (n : Z) :
  num_notes self0 = Some n ->
  composition_length (MusicEnv.__init__ u) = 64 /\
  exists outs self',
    (_ <- MusicEnv._reset drawn ;; episode u actions) self0 = (Ok outs, self') /\
    length outs = length actions /\
    beat self' = Some (Py.len actions) /\
    forall (k : nat) out, outs !! k = Some out ->
      let beat_after_increment := Z.of_nat k + 1 in
      (done_flag out = true <->
       beat_after_increment = composition_length self0) /\
      (done_flag out = false <->
       beat_after_increment <> composition_length self0).
Proof.
  intros Hn. split; [reflexivity|].
  destruct (episode_runs u actions (snd (MusicEnv._reset drawn self0)) [] 0 n
              eq_refl eq_refl Hn)
    as (outs & self' & Hrun & Hlen & _ & Hb & Hdone).
  exists outs, self'. split; [exact Hrun|]. split; [exact Hlen|].
  split; [exact Hb|].
  intros k out Hout. cbv zeta. rewrite (Hdone k out Hout).
  change (composition_length (snd (MusicEnv._reset drawn self0)))
    with (composition_length self0).
  rewrite Z.add_0_l.
  destruct (Z.eqb_spec (Z.of_nat k + 1) (composition_length self0)) as [E|E];
    split; split; intros H; first [exact E | reflexivity | discriminate H
                                  | contradiction | exact E].
Qed.

Lemma done_exactly_at_composition_length_witness :
  num_notes (env_with magenta_util [7] 3 (Some 64)) = Some 64 /\
  exists outs self',
    (_ <- MusicEnv._reset 5 ;; episode magenta_util [14; 21])
      (env_with magenta_util [7] 3 (Some 64))
    = (Ok outs, self') /\
    length outs = 2%nat.
Proof.
  split; [reflexivity|].
  destruct (done_exactly_at_composition_length magenta_util 5 [14; 21]
              (env_with magenta_util [7] 3 (Some 64)) 64 eq_refl)
    as (_ & outs & self' & Hrun & Hlen & _).
  exists outs, self'. split; [exact Hrun | exact Hlen].
Defined.

(** ** The beat and the composition *)

Lemma reward_tonic_after_first_beat (u : Util) (action tonic_note : Z)
    (amount : Q) (self : Env) (b : Z) :
  beat self = Some b -> b <> 0 ->
  MusicTheoryEnv.reward_tonic u action tonic_note amount self
  = reward_tonic_without_beat_0 u action tonic_note amount self.
Proof.
  intros Hb Hne.
  assert (E0 : (b =? 0) = false) by (apply Z.eqb_neq; exact Hne).
  assert (Hbeat : returns self_beat self b) by (apply returns_getattr, Hb).
  unfold MusicTheoryEnv.reward_tonic, reward_tonic_without_beat_0.
  destruct (num_notes self) as [n|] eqn:En.
  - assert (Hn : returns self_num_notes self n) by (apply returns_getattr, En).
    rewrite !(bind_returns self_num_notes _ self n Hn). cbv beta zeta.
    rewrite !(bind_returns self_beat _ self b Hbeat). cbv beta.
    rewrite ?(bind_returns self_beat _ self b Hbeat). cbv beta.
    rewrite E0. reflexivity.
  - unfold bind, self_num_notes, getattr. rewrite En. reflexivity.
Qed.

Lemma step_keeps_beat (u : Util) (action : Z) (self : Env) :
  beat_is_len self -> beat_is_len (snd (MusicTheoryEnv._step u action self)).
Proof.
  intros (comp & Hcomp & Hb).
  rewrite step_final_state,
    (music_env_step action self comp (Py.len comp) Hcomp Hb).
  exists (comp ++ [action]). split; [reflexivity|].
  simpl. f_equal. unfold Py.len. rewrite length_app. simpl. lia.
Qed.

Lemma episode_keeps_beat (u : Util) (actions : list Z) :
  forall self, beat_is_len self -> beat_is_len (snd (episode u actions self)).
Proof.
  induction actions as [|action rest IH]; intros self Hself; [exact Hself|].
  pose proof (step_keeps_beat u action self Hself) as Hstep.
  simpl. unfold bind at 1.
  destruct (MusicTheoryEnv._step u action self) as [[out|e] s1];
    [|exact Hstep].
  simpl in Hstep. specialize (IH s1 Hstep). unfold bind.
  destruct (episode u rest s1) as [[outs|e] s2]; exact IH.
Qed.

(** C10: after [_reset] the composition is empty and the beat is 0. From an
    object whose beat is the length of its composition [comp], the base step
    returns and leaves the object [seen], whose composition is [comp] with
    the action appended, and nothing else, and whose beat is the length of
    that composition, at least 1. [_step] is then the five reward methods
    run, in the order of the calls, on [seen]: no reward is computed before
    the append and the increment; and as no reward method changes the
    object, each of them runs on [seen] itself, which is also the object
    that the step leaves behind. On [seen], [reward_tonic] does what it does
    without its beat-0 test. Hence after a reset and any number of steps,
    returning or not, the beat is the length of the composition. *)
Theorem beat_is_length_of_composition (u : Util) :
  (forall (self0 : Env) (drawn : Z),
     let self := snd (MusicEnv._reset drawn self0) in
     composition self = Some [] /\ beat self = Some 0 /\ beat_is_len self) /\
  (forall (self : Env) (comp : list Z) (action : Z),
     composition self = Some comp ->
     beat self = Some (Py.len comp) ->
     let seen := stepped self comp (Py.len comp) action in
     let done := Py.len comp + 1 =? composition_length self in
     MusicEnv._step action self = (Ok (action, 0%Q, done, tt), seen) /\
     composition seen = Some (comp ++ [action]) /\
     beat seen = Some (Py.len (comp ++ [action])) /\
     Py.len (comp ++ [action]) = Py.len comp + 1 /\
     1 <= Py.len (comp ++ [action]) /\
     MusicTheoryEnv._step u action self
     = (t <- MusicTheoryEnv.reward_tonic u action (C_MAJOR_TONIC u) 3%Q ;;
        k <- MusicTheoryEnv.reward_key action (-1)%Q (C_MAJOR_KEY u) ;;
        n <- MusicTheoryEnv.reward_non_repeating u action ;;
        m <- MusicTheoryEnv.reward_motif u action 3%Q ;;
        p <- MusicTheoryEnv.reward_repeated_motif u action
               (BEATS_PER_BAR u) 4%Q ;;
        ret (action, (0 + t + k + n + m + p)%Q, done, tt)) seen /\
     snd (MusicTheoryEnv._step u action self) = seen /\
     MusicTheoryEnv.reward_tonic u action (C_MAJOR_TONIC u) 3%Q seen
     = reward_tonic_without_beat_0 u action (C_MAJOR_TONIC u) 3%Q seen) /\
  (forall action : Z,
     readonly (MusicTheoryEnv.reward_tonic u action (C_MAJOR_TONIC u) 3%Q) /\
     readonly (MusicTheoryEnv.reward_key action (-1)%Q (C_MAJOR_KEY u)) /\
     readonly (MusicTheoryEnv.reward_non_repeating u action) /\
     readonly (MusicTheoryEnv.reward_motif u action 3%Q) /\
     readonly (MusicTheoryEnv.reward_repeated_motif u action
                 (BEATS_PER_BAR u) 4%Q)) /\
  (forall (self0 : Env) (drawn : Z) (actions : list Z),
     beat_is_len
       (snd ((_ <- MusicEnv._reset drawn ;; episode u actions) self0))).
Proof.
  split; [|split; [|split]].
  - intros self0 drawn. cbv zeta. split; [reflexivity|]. split; [reflexivity|].
    exists []. split; reflexivity.
  - intros self comp action Hcomp Hb. cbv zeta.
    pose proof (music_env_step action self comp (Py.len comp) Hcomp Hb)
      as Hbase.
    assert (Hlen : Py.len (comp ++ [action]) = Py.len comp + 1).
    { unfold Py.len. rewrite length_app. simpl. lia. }
    split; [exact Hbase|]. split; [reflexivity|].
    split; [simpl; f_equal; symmetry; exact Hlen|].
    split; [exact Hlen|]. split; [rewrite Hlen; unfold Py.len; lia|].
    split.
    { unfold MusicTheoryEnv._step. unfold bind at 1. rewrite Hbase.
      reflexivity. }
    split; [rewrite step_final_state, Hbase; reflexivity|].
    apply (reward_tonic_after_first_beat u _ _ _ _ (Py.len comp + 1));
      [reflexivity | unfold Py.len; lia].
  - intros action.
    split; [apply readonly_reward_tonic|].
    split; [apply readonly_reward_key|].
    split; [apply readonly_reward_non_repeating|].
    split; [apply readonly_reward_motif|].
    apply readonly_reward_repeated_motif.
  - intros self0 drawn actions.
    change ((_ <- MusicEnv._reset drawn ;; episode u actions) self0)
      with (episode u actions (snd (MusicEnv._reset drawn self0))).
    apply episode_keeps_beat. exists []. split; reflexivity.
Qed.

Lemma beat_is_length_of_composition_witness :
  composition (env_with magenta_util [14; 21] 2 None) = Some [14; 21] /\
  beat (env_with magenta_util [14; 21] 2 None) = Some (Py.len [14; 21]) /\
  snd (MusicTheoryEnv._step magenta_util 16
         (env_with magenta_util [14; 21] 2 None))
  = stepped (env_with magenta_util [14; 21] 2 None) [14; 21] 2 16 /\
  composition (stepped (env_with magenta_util [14; 21] 2 None) [14; 21] 2 16)
  = Some ([14; 21] ++ [16]).
Proof.
  split; [reflexivity|]. split; [reflexivity|].
  destruct (beat_is_length_of_composition magenta_util) as (_ & Hstep & _).
  destruct (Hstep (env_with magenta_util [14; 21] 2 None) [14; 21] 16
              eq_refl eq_refl)
    as (_ & Hcomp & _ & _ & _ & _ & Hfinal & _).
  split; [exact Hfinal | exact Hcomp].
Defined.

(** ** The attribute [num_notes] *)

(** Neither [__init__] nor [_reset] assigns [num_notes]: on an object that
    only they have touched, a step appends the action, advances the beat and
    then raises in [reward_tonic]. The statements above about steps that
    return therefore ask for [num_notes] to have a value. *)
Lemma step_needs_num_notes (u : Util) (drawn action : Z) :
  MusicTheoryEnv._step u action
    (snd (MusicEnv._reset drawn (MusicEnv.__init__ u)))
  = (Raise (AttributeError "num_notes"),
     stepped (snd (MusicEnv._reset drawn (MusicEnv.__init__ u))) [] 0 action).
Proof. reflexivity. Qed.

(** * Further properties of the code *)

(** ** The backward scan, element by element *)

Lemma range_lookup (n : Z) (i : nat) :
  (i < Z.to_nat n)%nat -> Py.range n !! i = Some (Z.of_nat i).
Proof.
  intros Hi. unfold Py.range. rewrite list_lookup_fmap.
  rewrite (proj2 (lookup_seq 0 (Z.to_nat n) i i)); [reflexivity|].
  split; [reflexivity | exact Hi].
Qed.

Lemma range_indexes {A} (l : list A) (n : nat) :
  (n <= length l)%nat ->
  Forall2 (fun i x => Py.index l i = Some x) (Py.range (Z.of_nat n)) (take n l).
Proof.
  intros Hn. apply Forall2_same_length_lookup_2.
  - unfold Py.range. rewrite length_fmap, length_seq, length_take. lia.
  - intros i j x Hj Hx.
    assert (Hi : (i < n)%nat).
    { apply lookup_lt_Some in Hx. rewrite length_take in Hx. lia. }
    rewrite range_lookup in Hj by lia. injection Hj as <-.
    rewrite lookup_take_lt in Hx by exact Hi.
    destruct (index_in_range l (Z.of_nat i)) as [-> _];
      [unfold Py.len; lia|].
    rewrite Nat2Z.id. exact Hx.
Qed.

Lemma scan_indexed (u : Util) (action : Z) (comp : list Z)
    (items visited : list Z) (s : repeats) :
  Forall2 (fun i x => Py.index comp i = Some x) items visited ->
  loop_vars
    (for_pure items
       (fun i s =>
          match Py.index comp i with
          | Some x => scan_body u action x s
          | None => Break s
          end) s)
  = scan_list u action visited s.
Proof.
  intros H. revert s. induction H as [|i x items visited Hi _ IH]; intros s.
  - reflexivity.
  - simpl. rewrite Hi.
    destruct (scan_body u action x s) as [s'|s'|[]]; [apply IH | reflexivity].
Qed.

(** The scan visits the elements before the last one, the nearest first. *)
Lemma scan_of_before (u : Util) (action : Z) (before : list Z) (last : Z) :
  scan_of u action (before ++ [last])
  = scan_list u action (reverse before) no_repeats.
Proof.
  unfold scan_of. apply scan_indexed.
  unfold Py.range_down. apply Forall2_reverse.
  replace (Py.len (before ++ [last]) - 2 + 1) with (Z.of_nat (length before))
    by (unfold Py.len; rewrite length_app; simpl; lia).
  rewrite <- (take_app_length before [last]) at 2.
  apply range_indexes. rewrite length_app. lia.
Qed.

(** Visiting stops at an element that is neither the action, nor a rest,
    nor a hold. *)
Lemma scan_list_stops (u : Util) (action x : Z) (near far : list Z)
    (s : repeats) :
  x <> action -> sounded u x ->
  scan_list u action (near ++ x :: far) s = scan_list u action near s.
Proof.
  intros Hx [Hh Hr]. revert s. induction near as [|y near IH]; intros s; simpl.
  - unfold scan_body.
    destruct (Z.eqb_spec x action); [contradiction|].
    destruct (Z.eqb_spec x (NOTE_OFF u)); [contradiction|].
    destruct (Z.eqb_spec x (NO_EVENT u)); [contradiction|]. reflexivity.
  - destruct (scan_body u action y s) as [s'|s'|[]]; [apply IH | reflexivity].
Qed.

Lemma scan_list_counts (u : Util) (action : Z) (visited : list Z)
    (s : repeats) :
  Forall (fun y => y = action \/ non_note u y) visited ->
  num_repeated (scan_list u action visited s)
  = num_repeated s + occurrences action visited.
Proof.
  unfold occurrences, Py.len. intros H. revert s.
  induction H as [|y visited Hy _ IH]; intros s; simpl.
  - lia.
  - unfold scan_body. destruct (Z.eqb_spec y action) as [->|Hne].
    + rewrite IH, filter_cons_True by reflexivity. simpl. lia.
    + rewrite filter_cons_False by exact Hne.
      destruct Hy as [Hy|Hy]; [contradiction|].
      destruct (Z.eqb_spec y (NOTE_OFF u)); [rewrite IH; reflexivity|].
      destruct (Z.eqb_spec y (NO_EVENT u)); [rewrite IH; reflexivity|].
      destruct Hy; contradiction.
Qed.

Lemma scan_list_only_repeats (u : Util) (action : Z) (n : nat) (s : repeats) :
  contains_held_notes (scan_list u action (replicate n action) s)
  = contains_held_notes s /\
  contains_breaks (scan_list u action (replicate n action) s)
  = contains_breaks s.
Proof.
  revert s. induction n as [|n IH]; intros s; simpl; [split; reflexivity|].
  unfold scan_body. rewrite Z.eqb_refl. rewrite !(proj1 (IH _)), !(proj2 (IH _)).
  split; reflexivity.
Qed.

Lemma scan_list_keeps_flags (u : Util) (action : Z) (visited : list Z)
    (s : repeats) :
  contains_held_notes s || contains_breaks s = true ->
  contains_held_notes (scan_list u action visited s)
  || contains_breaks (scan_list u action visited s) = true.
Proof.
  revert s. induction visited as [|y visited IH]; intros s Hs; simpl;
    [exact Hs|].
  unfold scan_body.
  destruct (y =? action); [apply IH; exact Hs|].
  destruct (y =? NOTE_OFF u); [apply IH; simpl; apply orb_true_r|].
  destruct (y =? NO_EVENT u); [apply IH; reflexivity | exact Hs].
Qed.

Lemma scan_list_interleaved (u : Util) (action : Z) (visited : list Z)
    (s : repeats) :
  sounded u action ->
  Forall (fun y => y = action \/ non_note u y) visited ->
  Exists (non_note u) visited ->
  contains_held_notes (scan_list u action visited s)
  || contains_breaks (scan_list u action visited s) = true.
Proof.
  intros [Hh Hr] Hall Hex. revert s.
  induction Hall as [|y visited Hy Hall IH]; intros s; [inversion Hex|].
  simpl. unfold scan_body.
  destruct (Z.eqb_spec y action) as [->|Hne].
  - apply IH. inversion Hex as [? ? Hnon|]; [|assumption].
    destruct Hnon; contradiction.
  - destruct Hy as [Hy|Hy]; [contradiction|].
    destruct (Z.eqb_spec y (NOTE_OFF u)).
    { apply scan_list_keeps_flags. simpl. apply orb_true_r. }
    destruct (Z.eqb_spec y (NO_EVENT u)).
    { apply scan_list_keeps_flags. reflexivity. }
    destruct Hy; contradiction.
Qed.

Lemma occurrences_reverse (a : Z) (l : list Z) :
  occurrences a (reverse l) = occurrences a l.
Proof.
  unfold occurrences, Py.len. rewrite filter_reverse, length_reverse. reflexivity.
Qed.

Lemma occurrences_replicate (a : Z) (n : nat) :
  occurrences a (replicate n a) = Z.of_nat n.
Proof.
  unfold occurrences, Py.len. induction n as [|n IH]; [reflexivity|].
  simpl replicate. rewrite filter_cons_True by reflexivity. simpl length. lia.
Qed.

(** ** What counts as excessive repetition *)

(** X1: what [detect_repeating_notes] answers does not depend on the last
    element of the composition, nor on anything that precedes the nearest
    earlier element that is a pitch other than the action. *)
Theorem repeats_ignore_earlier_notes (u : Util) (action x last last' : Z)
    (far near : list Z) (self self' : Env) :
  composition self = Some (far ++ x :: near ++ [last]) ->
  composition self' = Some (near ++ [last']) ->
  x <> action -> sounded u x ->
  exists r,
    returns (MusicTheoryEnv.detect_repeating_notes u action) self r /\
    returns (MusicTheoryEnv.detect_repeating_notes u action) self' r.
Proof.
  intros Hcomp Hcomp' Hx Hs.
  pose proof (detect_repeating_notes_returns u action self _ Hcomp) as R.
  pose proof (detect_repeating_notes_returns u action self' _ Hcomp') as R'.
  replace (far ++ x :: near ++ [last]) with ((far ++ x :: near) ++ [last]) in R
    by (rewrite <- app_assoc; reflexivity).
  rewrite scan_of_before in R, R'.
  rewrite reverse_app, reverse_cons, <- app_assoc in R. simpl in R.
  rewrite (scan_list_stops u action x _ _ _ Hx Hs) in R.
  eexists. split; [exact R | exact R'].
Qed.

Lemma repeats_ignore_earlier_notes_witness :
  exists r,
    returns (MusicTheoryEnv.detect_repeating_notes magenta_util 5)
      (env_with magenta_util [5; 5; 5; 7; 5; 1; 5] 7 None) r /\
    returns (MusicTheoryEnv.detect_repeating_notes magenta_util 5)
      (env_with magenta_util [5; 1; 9] 3 None) r.
Proof.
  apply (repeats_ignore_earlier_notes magenta_util 5 7 5 9 [5; 5; 5] [5; 1]
           (env_with magenta_util [5; 5; 5; 7; 5; 1; 5] 7 None)
           (env_with magenta_util [5; 1; 9] 3 None));
    [reflexivity | reflexivity | discriminate | split; discriminate].
Defined.

(** X2: for an action that is a pitch, when every element before the last
    one is the action, a hold or a rest: with [n] copies of the action and
    nothing else, the answer is [n > 4]; as soon as a hold or a rest is
    among them, the answer is [count > 6], with [count] the number of
    copies of the action. *)
Theorem repeats_thresholds (u : Util) (action last : Z) (before : list Z)
    (self : Env) :
  composition self = Some (before ++ [last]) ->
  sounded u action ->
  Forall (fun y => y = action \/ non_note u y) before ->
  (forall n : nat, before = replicate n action ->
     returns (MusicTheoryEnv.detect_repeating_notes u action) self
       (Z.of_nat n >? 4)) /\
  (Exists (non_note u) before ->
     returns (MusicTheoryEnv.detect_repeating_notes u action) self
       (occurrences action before >? 6)).
Proof.
  intros Hcomp Hs Hall.
  pose proof (detect_repeating_notes_returns u action self _ Hcomp) as R.
  rewrite scan_of_before in R.
  assert (Hoff : (action =? NOTE_OFF u) = false)
    by (apply Z.eqb_neq; exact (proj2 Hs)).
  assert (Hnum := scan_list_counts u action (reverse before) no_repeats
                    (proj2 (Forall_reverse _ _) Hall)).
  rewrite occurrences_reverse in Hnum.
  change (num_repeated no_repeats) with 0 in Hnum. rewrite Z.add_0_l in Hnum.
  unfold MusicTheoryEnv.excessive in R. rewrite Hoff, Hnum in R. simpl in R.
  split.
  - intros n ->. rewrite reverse_replicate in R.
    destruct (scan_list_only_repeats u action n no_repeats) as [Hh Hb].
    rewrite Hh, Hb, occurrences_replicate in R. simpl in R.
    destruct (Z.of_nat n >? 4); exact R.
  - intros Hex.
    assert (Hex' : Exists (non_note u) (reverse before)).
    { apply Exists_exists in Hex as (y & Hy & Hnon).
      apply Exists_exists. exists y. split; [|exact Hnon].
      apply elem_of_reverse. exact Hy. }
    pose proof (scan_list_interleaved u action _ no_repeats Hs
                  (proj2 (Forall_reverse _ _) Hall) Hex') as Hflags.
    destruct (contains_held_notes _), (contains_breaks _);
      try discriminate Hflags; simpl in R;
      destruct (occurrences action before >? 6); exact R.
Qed.

Lemma repeats_thresholds_witness :
  returns (MusicTheoryEnv.detect_repeating_notes magenta_util 5)
    (env_with magenta_util [5; 5; 5; 5; 5; 5] 6 None) (5 >? 4) /\
  returns (MusicTheoryEnv.detect_repeating_notes magenta_util 5)
    (env_with magenta_util [5; 1; 5; 5; 0; 5; 5; 5] 8 None)
    (occurrences 5 [5; 1; 5; 5; 0; 5; 5] >? 6).
Proof.
  assert (Hs : sounded magenta_util 5) by (split; discriminate).
  split.
  - apply (proj1 (repeats_thresholds magenta_util 5 5 [5; 5; 5; 5; 5]
                    (env_with magenta_util [5; 5; 5; 5; 5; 5] 6 None)
                    eq_refl Hs
                    ltac:(repeat constructor)) 5%nat eq_refl).
  - apply (proj2 (repeats_thresholds magenta_util 5 5 [5; 1; 5; 5; 0; 5; 5]
                    (env_with magenta_util [5; 1; 5; 5; 0; 5; 5; 5] 8 None)
                    eq_refl Hs
                    ltac:(repeat (constructor;
                                  [first [left; reflexivity
                                         | right; left; reflexivity
                                         | right; right; reflexivity]|]);
                          constructor))).
    apply Exists_cons_tl, Exists_cons_hd. left. reflexivity.
Defined.

(** X3: for the rest itself as the action, when every element before the
    last one is a rest or a hold, the answer is whether more than one of
    them is a rest: the third rest of such a stretch is excessive. *)
Theorem rests_threshold (u : Util) (last : Z) (before : list Z) (self : Env) :
  composition self = Some (before ++ [last]) ->
  Forall (non_note u) before ->
  returns (MusicTheoryEnv.detect_repeating_notes u (NOTE_OFF u)) self
    (occurrences (NOTE_OFF u) before >? 1).
Proof.
  intros Hcomp Hall.
  pose proof (detect_repeating_notes_returns u (NOTE_OFF u) self _ Hcomp) as R.
  rewrite scan_of_before in R.
  assert (Hall' : Forall (fun y => y = NOTE_OFF u \/ non_note u y)
                    (reverse before)).
  { apply Forall_reverse. eapply Forall_impl; [exact Hall|].
    intros y Hy. right. exact Hy. }
  assert (Hnum := scan_list_counts u (NOTE_OFF u) _ no_repeats Hall').
  rewrite occurrences_reverse in Hnum.
  change (num_repeated no_repeats) with 0 in Hnum. rewrite Z.add_0_l in Hnum.
  unfold MusicTheoryEnv.excessive in R. rewrite Z.eqb_refl, Hnum in R.
  simpl in R.
  destruct (Z.gtb_spec (occurrences (NOTE_OFF u) before) 1) as [Hgt|Hle];
    [exact R|].
  destruct (Z.gtb_spec (occurrences (NOTE_OFF u) before) 4); [lia|].
  destruct (Z.gtb_spec (occurrences (NOTE_OFF u) before) 6); [lia|].
  destruct (Z.gtb_spec (occurrences (NOTE_OFF u) before) 8); [lia|].
  destruct (contains_held_notes _), (contains_breaks _); exact R.
Qed.

Lemma rests_threshold_witness :
  returns (MusicTheoryEnv.detect_repeating_notes magenta_util
             (NOTE_OFF magenta_util))
    (env_with magenta_util [0; 1; 0; 0] 4 None)
    (occurrences (NOTE_OFF magenta_util) [0; 1; 0] >? 1).
Proof.
  apply (rests_threshold magenta_util 0 [0; 1; 0]
           (env_with magenta_util [0; 1; 0; 0] 4 None) eq_refl).
  repeat (constructor; [first [left; reflexivity | right; reflexivity]|]).
  constructor.
Defined.

(** ** Motifs *)

Lemma count_distinct_bounds (u : Util) (w : list Z) :
  0 <= Py.count_distinct
         (filter (fun a => a <> NO_EVENT u /\ a <> NOTE_OFF u) w)
    <= Py.len w.
Proof.
  destruct (count_distinct_sounded u w) as (codes & Hnodup & Hin & ->).
  unfold Py.len. split; [lia|].
  apply Nat2Z.inj_le, submseteq_length, NoDup_submseteq; [exact Hnodup|].
  intros x Hx. apply Hin in Hx. tauto.
Qed.

Lemma last_motif_of_found (u : Util) (comp : list Z) (bar_length : Z)
    (w : list Z) (d : Z) :
  last_motif_of u comp bar_length = (Some w, d) ->
  w = Py.slice_from comp (- bar_length) /\
  d = Py.count_distinct
        (filter (fun a => a <> NO_EVENT u /\ a <> NOTE_OFF u) w) /\
  3 <= d.
Proof.
  unfold last_motif_of.
  destruct (Py.len comp <? bar_length); [discriminate|]. cbv zeta.
  destruct (Z.geb_spec
              (Py.count_distinct
                 (filter (fun a => a <> NO_EVENT u /\ a <> NOTE_OFF u)
                    (Py.slice_from comp (- bar_length)))) 3) as [Hge|];
    [|discriminate].
  intros [= <- <-]. split; [reflexivity|]. split; [reflexivity | exact Hge].
Qed.

Lemma max_of_count (d : Z) (scale : Q) :
  3 <= d -> (0 <= scale)%Q ->
  Py.max (inject_Z (d - 3) * scale)%Q 0%Q = (inject_Z (d - 3) * scale)%Q.
Proof.
  intros Hd Hscale. unfold Py.max.
  destruct (Qle_bool 0 (inject_Z (d - 3) * scale)) eqn:E; [reflexivity|].
  assert (H : (0 <= inject_Z (d - 3) * scale)%Q).
  { apply Qmult_le_0_compat; [|exact Hscale].
    change 0%Q with (inject_Z 0). rewrite <- Zle_Qle. lia. }
  apply Qle_bool_iff in H. congruence.
Qed.

(** X4: for a positive bar length, what [detect_last_motif] returns depends
    on the last bar alone: whatever precedes a window [w] of [bar_length]
    elements, the result is the one for [w] itself. *)
Theorem last_motif_only_last_bar (u : Util) (earlier w : list Z)
    (bar_length : Z) (self : Env) :
  0 < bar_length ->
  Py.len w = bar_length ->
  MusicTheoryEnv.detect_last_motif u (earlier ++ w) bar_length self
  = MusicTheoryEnv.detect_last_motif u w bar_length self.
Proof.
  intros Hpos Hlen. unfold MusicTheoryEnv.detect_last_motif.
  assert (Hall : Py.len (earlier ++ w) = Py.len earlier + bar_length)
    by (unfold Py.len in *; rewrite length_app; lia).
  assert (Hnn : 0 <= Py.len earlier) by (unfold Py.len; lia).
  destruct (Z.ltb_spec (Py.len (earlier ++ w)) bar_length); [lia|].
  destruct (Z.ltb_spec (Py.len w) bar_length); [lia|].
  rewrite !slice_from_last by lia.
  replace (Z.to_nat (Py.len (earlier ++ w) - bar_length))
    with (length earlier) by (unfold Py.len in *; lia).
  replace (Z.to_nat (Py.len w - bar_length)) with 0%nat by lia.
  rewrite drop_app_length, drop_0. reflexivity.
Qed.

Lemma last_motif_only_last_bar_witness :
  MusicTheoryEnv.detect_last_motif magenta_util ([7; 7] ++ [2; 4; 6]) 3
    (env_with magenta_util [] 0 None)
  = MusicTheoryEnv.detect_last_motif magenta_util [2; 4; 6] 3
      (env_with magenta_util [] 0 None).
Proof.
  apply (last_motif_only_last_bar magenta_util [7; 7] [2; 4; 6] 3);
    [lia | reflexivity].
Defined.

(** X5: for a positive bar length, the count that [detect_last_motif]
    returns lies between 0 and the bar length, a motif is returned exactly
    when the count is at least 3, and a returned motif has [bar_length]
    elements; so a bar shorter than 3 never holds a motif. *)
Theorem last_motif_count_bounds (u : Util) (composition : list Z)
    (bar_length : Z) (self : Env) :
  0 < bar_length ->
  exists motif d,
    returns (MusicTheoryEnv.detect_last_motif u composition bar_length) self
      (motif, d) /\
    0 <= d <= bar_length /\
    (motif <> None <-> 3 <= d) /\
    (forall w, motif = Some w -> Py.len w = bar_length) /\
    (bar_length < 3 -> motif = None).
Proof.
  intros Hpos.
  pose proof (detect_last_motif_returns u composition bar_length self) as R.
  destruct (last_motif_of u composition bar_length) as [motif d] eqn:E.
  exists motif, d. split; [exact R|].
  unfold last_motif_of in E.
  destruct (Z.ltb_spec (Py.len composition) bar_length) as [Hshort|Hlong].
  { injection E as <- <-. split; [lia|]. split; [split; [congruence | lia]|].
    split; [discriminate | reflexivity]. }
  cbv zeta in E. rewrite slice_from_last in E by lia.
  pose proof (count_distinct_bounds u
                (drop (Z.to_nat (Py.len composition - bar_length)) composition))
    as Hb.
  rewrite len_drop_last in Hb by lia.
  destruct (Z.geb_spec
              (Py.count_distinct
                 (filter (fun a => a <> NO_EVENT u /\ a <> NOTE_OFF u)
                    (drop (Z.to_nat (Py.len composition - bar_length))
                       composition))) 3) as [Hge|Hlt];
    injection E as <- <-.
  - split; [exact Hb|]. split; [split; [intros _; exact Hge | discriminate]|].
    split; [|lia]. intros w [= <-]. apply len_drop_last. lia.
  - split; [exact Hb|]. split; [split; [congruence | lia]|].
    split; [discriminate | reflexivity].
Qed.

Lemma last_motif_count_bounds_witness :
  0 < 2 /\
  returns (MusicTheoryEnv.detect_last_motif magenta_util [2; 4; 6; 7] 2)
    (env_with magenta_util [] 0 None) (None, 2).
Proof.
  split; [lia|].
  destruct (last_motif_count_bounds magenta_util [2; 4; 6; 7] 2
              (env_with magenta_util [] 0 None) ltac:(lia))
    as (motif & d & R & _ & _ & _ & Hnone).
  rewrite (Hnone ltac:(lia)) in R.
  assert (d = 2) as -> by (injection R as <-; reflexivity).
  exact R.
Defined.

(** X6: [reward_motif] pays nothing when [detect_last_motif] finds no motif
    in the composition, and otherwise the reward amount plus 0.3 for each
    distinct pitch beyond the third: the [max] with 0 never cuts the bonus,
    since a motif has at least 3. The object is left as it was. *)
Theorem reward_motif_value (u : Util) (action : Z) (amount : Q) (self : Env)
    (comp : list Z) :
  composition self = Some comp ->
  exists motif d,
    returns (MusicTheoryEnv.detect_last_motif u comp (BEATS_PER_BAR u)) self
      (motif, d) /\
    returns (MusicTheoryEnv.reward_motif u action amount) self
      (match motif with
       | Some _ => amount + inject_Z (d - 3) * (3 # 10)
       | None => 0
       end)%Q.
Proof.
  intros Hcomp.
  pose proof (detect_last_motif_returns u comp (BEATS_PER_BAR u) self) as R.
  destruct (last_motif_of u comp (BEATS_PER_BAR u)) as [motif d] eqn:E.
  exists motif, d. split; [exact R|].
  unfold MusicTheoryEnv.reward_motif.
  eapply returns_bind; [apply returns_getattr, Hcomp|].
  eapply returns_bind; [apply detect_last_motif_returns|].
  rewrite E. destruct motif as [w|]; [|apply returns_ret].
  destruct (last_motif_of_found u _ _ _ _ E) as (_ & _ & Hd).
  cbv zeta. rewrite max_of_count by (lia || discriminate).
  apply returns_ret.
Qed.

Lemma reward_motif_value_witness :
  returns (MusicTheoryEnv.reward_motif magenta_util 9 3%Q)
    (env_with magenta_util [2; 4; 6; 7; 9; 11; 13; 14] 8 None)
    (3 + inject_Z (8 - 3) * (3 # 10))%Q.
Proof.
  destruct (reward_motif_value magenta_util 9 3%Q
              (env_with magenta_util [2; 4; 6; 7; 9; 11; 13; 14] 8 None)
              [2; 4; 6; 7; 9; 11; 13; 14] eq_refl)
    as (motif & d & Rlast & R).
  assert (E : (motif, d) = (Some [2; 4; 6; 7; 9; 11; 13; 14], 8))
    by (injection Rlast as <- <-; reflexivity).
  injection E as -> ->. exact R.
Defined.

(** ** Repeated motifs *)

Lemma repeated_motif_of_found (u : Util) (comp : list Z) (bar_length : Z)
    (w : list Z) :
  repeated_motif_of u comp bar_length = (true, Some w) ->
  fst (last_motif_of u comp bar_length) = Some w.
Proof.
  unfold repeated_motif_of.
  destruct (Py.len comp <? bar_length); [discriminate|].
  destruct (fst (last_motif_of u comp bar_length)) as [motif|];
    [|discriminate].
  unfold search.
  destruct (search_loop_cases
              (Py.range (Py.len (Py.slice_to comp (- (bar_length - 1) - 1))
                         - Py.len motif + 1))
              (Py.slice_to comp (- (bar_length - 1) - 1)) motif) as [-> | ->];
    [|discriminate].
  intros [= <-]. reflexivity.
Qed.

(** X7: on an object with a composition, [reward_repeated_motif] returns
    for every bar length, positive or not: the search never leaves the
    lists, and [detect_repeated_motif] answers either (true, the motif that
    [detect_last_motif] finds) or (false, none), never true without a motif.
    The reward is 0 in the second case and, in the first, the reward amount
    plus 1 for each distinct pitch of the motif beyond the third. *)
Theorem reward_repeated_motif_value (u : Util) (action bar_length : Z)
    (amount : Q) (self : Env) (comp : list Z) :
  composition self = Some comp ->
  exists found motif m d,
    returns (MusicTheoryEnv.detect_repeated_motif u action bar_length) self
      (found, motif) /\
    returns (MusicTheoryEnv.detect_last_motif u comp bar_length) self (m, d) /\
    (found = true -> motif = m /\ motif <> None /\ 3 <= d) /\
    (found = false -> motif = None) /\
    returns
      (MusicTheoryEnv.reward_repeated_motif u action bar_length amount) self
      (if found then amount + inject_Z (d - 3) else 0)%Q.
Proof.
  intros Hcomp.
  pose proof (detect_repeated_motif_returns u action bar_length self comp Hcomp)
    as Rrep.
  pose proof (detect_last_motif_returns u comp bar_length self) as Rlast.
  destruct (last_motif_of u comp bar_length) as [m d] eqn:Elast.
  destruct (repeated_motif_of_cases u comp bar_length) as [[w E]|E].
  - exists true, (Some w), m, d. rewrite E in Rrep.
    pose proof (repeated_motif_of_found u comp bar_length w E) as Hm.
    rewrite Elast in Hm. simpl in Hm. subst m.
    destruct (last_motif_of_found u _ _ _ _ Elast) as (_ & Hd & Hge).
    split; [exact Rrep|]. split; [exact Rlast|].
    split; [intros _; split; [reflexivity|]; split; [discriminate | exact Hge]|].
    split; [discriminate|].
    unfold MusicTheoryEnv.reward_repeated_motif.
    eapply returns_bind; [exact Rrep|]. cbv zeta beta iota.
    rewrite <- Hd.
    pose proof (max_of_count d 1 Hge ltac:(discriminate)) as Hmax.
    unfold Py.max in *.
    assert (Hle : Qle_bool 0 (inject_Z (d - 3)) = true).
    { apply Qle_bool_iff. change 0%Q with (inject_Z 0).
      rewrite <- Zle_Qle. lia. }
    rewrite Hle. apply returns_ret.
  - exists false, None, m, d. rewrite E in Rrep.
    split; [exact Rrep|]. split; [exact Rlast|].
    split; [discriminate|]. split; [reflexivity|].
    unfold MusicTheoryEnv.reward_repeated_motif.
    eapply returns_bind; [exact Rrep|]. apply returns_ret.
Qed.

Lemma reward_repeated_motif_value_witness :
  composition (env_with magenta_util [2; 4; 6; 9; 2; 4; 6; 9] 8 None)
  = Some [2; 4; 6; 9; 2; 4; 6; 9] /\
  returns (MusicTheoryEnv.reward_repeated_motif magenta_util 9 4 4%Q)
    (env_with magenta_util [2; 4; 6; 9; 2; 4; 6; 9] 8 None)
    (4 + inject_Z (4 - 3))%Q.
Proof.
  split; [reflexivity|].
  destruct (reward_repeated_motif_value magenta_util 9 4 4%Q
              (env_with magenta_util [2; 4; 6; 9; 2; 4; 6; 9] 8 None)
              [2; 4; 6; 9; 2; 4; 6; 9] eq_refl)
    as (found & motif & m & d & Rrep & Rlast & _ & _ & R).
  assert (Ef : (found, motif) = (true, Some [2; 4; 6; 9]))
    by (injection Rrep as <- <-; reflexivity).
  assert (Ed : (m, d) = (Some [2; 4; 6; 9], 4))
    by (injection Rlast as <- <-; reflexivity).
  injection Ef as -> _. injection Ed as _ ->. exact R.
Defined.

Lemma occurs_in_length (w l : list Z) :
  occurs_in w l -> (length w <= length l)%nat.
Proof. intros (before & after & ->). rewrite !length_app. lia. Qed.

(** X8: for a positive bar length, no repeat is reported before the
    composition holds two full bars: the part before the last bar is then
    shorter than the motif. *)
Theorem no_repeat_before_two_bars (u : Util) (action bar_length : Z)
    (self : Env) (comp : list Z) :
  composition self = Some comp ->
  0 < bar_length ->
  Py.len comp < 2 * bar_length ->
  returns (MusicTheoryEnv.detect_repeated_motif u action bar_length) self
    (false, None).
Proof.
  intros Hcomp Hpos Hshort.
  pose proof (detect_repeated_motif_returns u action bar_length self comp Hcomp)
    as R.
  assert (E : repeated_motif_of u comp bar_length = (false, None));
    [|rewrite E in R; exact R].
  unfold repeated_motif_of.
  destruct (Z.ltb_spec (Py.len comp) bar_length) as [|Hlong]; [reflexivity|].
  destruct (fst (last_motif_of u comp bar_length)) as [motif|] eqn:Em;
    [|reflexivity].
  apply (last_motif_of_window u) in Em; [|lia]. subst motif.
  rewrite slice_to_last by lia.
  apply search_absent. intros Hocc. apply occurs_in_length in Hocc.
  unfold trailing_window in Hocc. rewrite length_drop, length_take in Hocc.
  unfold Py.len in *. lia.
Qed.

Lemma no_repeat_before_two_bars_witness :
  composition (env_with magenta_util [2; 4; 6; 2; 4] 5 None)
  = Some [2; 4; 6; 2; 4] /\
  returns (MusicTheoryEnv.detect_repeated_motif magenta_util 4 3)
    (env_with magenta_util [2; 4; 6; 2; 4] 5 None) (false, None).
Proof.
  split; [reflexivity|].
  apply (no_repeat_before_two_bars magenta_util 4 3
           (env_with magenta_util [2; 4; 6; 2; 4] 5 None) [2; 4; 6; 2; 4]);
    [reflexivity | lia | vm_compute; reflexivity].
Defined.

(** X9: a bar with at least 3 distinct pitches that was played before is
    found: when the composition ends with a window [w] of [bar_length]
    elements that also occurs, whole, somewhere before that last bar, the
    answer is (true, w). *)
Theorem repeated_bar_is_found (u : Util) (action bar_length : Z) (self : Env)
    (first between w : list Z) (d : Z) :
  composition self = Some (first ++ w ++ between ++ w) ->
  0 < bar_length ->
  Py.len w = bar_length ->
  distinct_sounded u w d ->
  3 <= d ->
  returns (MusicTheoryEnv.detect_repeated_motif u action bar_length) self
    (true, Some w).
Proof.
  intros Hcomp Hpos Hlen Hd Hge.
  pose proof (detect_repeated_motif_returns u action bar_length self _ Hcomp)
    as R.
  set (comp := first ++ w ++ between ++ w) in *.
  assert (Hsplit : comp = (first ++ w ++ between) ++ w)
    by (unfold comp; rewrite <- !app_assoc; reflexivity).
  assert (Hall : Py.len comp = Py.len (first ++ w ++ between) + bar_length)
    by (rewrite Hsplit; unfold Py.len in *; rewrite length_app; lia).
  assert (Hnn : 0 <= Py.len (first ++ w ++ between)) by (unfold Py.len; lia).
  assert (Hdrop : drop (Z.to_nat (Py.len comp - bar_length)) comp = w).
  { rewrite Hsplit at 2. apply drop_app_length'. unfold Py.len in *. lia. }
  assert (Htake : take (Z.to_nat (Py.len comp - bar_length)) comp
                  = first ++ w ++ between).
  { rewrite Hsplit at 2. apply take_app_length'. unfold Py.len in *. lia. }
  assert (E : repeated_motif_of u comp bar_length = (true, Some w));
    [|rewrite E in R; exact R].
  unfold repeated_motif_of, last_motif_of.
  destruct (Z.ltb_spec (Py.len comp) bar_length); [lia|].
  rewrite slice_from_last, slice_to_last, Hdrop, Htake by lia. cbv zeta.
  rewrite <- (distinct_sounded_unique u w _ _ Hd (count_distinct_sounded u w)).
  destruct (Z.geb_spec d 3); [|lia]. simpl.
  apply search_occurs. exists first, between. reflexivity.
Qed.

Lemma repeated_bar_is_found_witness :
  distinct_sounded magenta_util [2; 4; 6] 3 /\
  returns (MusicTheoryEnv.detect_repeated_motif magenta_util 6 3)
    (env_with magenta_util ([9] ++ [2; 4; 6] ++ [1; 0] ++ [2; 4; 6]) 9 None)
    (true, Some [2; 4; 6]).
Proof.
  assert (Hd : distinct_sounded magenta_util [2; 4; 6] 3)
    by apply (count_distinct_sounded magenta_util [2; 4; 6]).
  split; [exact Hd|].
  apply (repeated_bar_is_found magenta_util 6 3
           (env_with magenta_util ([9] ++ [2; 4; 6] ++ [1; 0] ++ [2; 4; 6])
              9 None)
           [9] [1; 0] [2; 4; 6] 3 eq_refl);
    [lia | reflexivity | exact Hd | lia].
Defined.

(** ** Steps *)

Lemma max_nonneg (a : Q) : (0 <= Py.max a 0)%Q.
Proof.
  unfold Py.max. destruct (Qle_bool 0 a) eqn:E.
  - apply Qle_bool_iff. exact E.
  - apply Qle_refl.
Qed.

Lemma sum_nonneg (a b : Q) : (0 <= a -> 0 <= b -> 0 <= a + b)%Q.
Proof. intros Ha Hb. exact (Qplus_le_compat 0 a 0 b Ha Hb). Qed.

Lemma reward_non_repeating_nonneg (u : Util) (action : Z) (self : Env) (r : Q) :
  returns (MusicTheoryEnv.reward_non_repeating u action) self r -> (0 <= r)%Q.
Proof.
  unfold returns, MusicTheoryEnv.reward_non_repeating, bind.
  destruct (MusicTheoryEnv.detect_repeating_notes u action self)
    as [[[|]|e] s]; simpl; intros [= <- _]; discriminate.
Qed.

Lemma reward_motif_nonneg (u : Util) (action : Z) (self : Env) (m : Q) :
  returns (MusicTheoryEnv.reward_motif u action 3%Q) self m -> (0 <= m)%Q.
Proof.
  unfold returns, MusicTheoryEnv.reward_motif, bind.
  destruct (self_composition self) as [[comp|e] s]; [|discriminate].
  destruct (MusicTheoryEnv.detect_last_motif u comp (BEATS_PER_BAR u) s)
    as [[[[w|] d]|e] s']; simpl; intros [= <- _]; [|discriminate].
  apply (Qle_trans _ (3 + 0)); [discriminate|].
  apply Qplus_le_r, max_nonneg.
Qed.

Lemma reward_repeated_motif_nonneg (u : Util) (action bar_length : Z)
    (self : Env) (p : Q) :
  returns (MusicTheoryEnv.reward_repeated_motif u action bar_length 4%Q) self p
  -> (0 <= p)%Q.
Proof.
  unfold returns, MusicTheoryEnv.reward_repeated_motif, bind.
  destruct (MusicTheoryEnv.detect_repeated_motif u action bar_length self)
    as [[[[|] [w|]]|e] s]; simpl; intros [= <- _]; try discriminate.
  apply (Qle_trans _ (4 + 0)); [discriminate|].
  apply Qplus_le_r, max_nonneg.
Qed.

Lemma reward_tonic_nonneg (u : Util) (action : Z) (self : Env) (t : Q) :
  returns (MusicTheoryEnv.reward_tonic u action (C_MAJOR_TONIC u) 3%Q) self t
  -> (0 <= t)%Q.
Proof.
  intros R. unfold returns in R.
  destruct (num_notes self) as [n|] eqn:En; destruct (beat self) as [b|] eqn:Eb.
  - rewrite (reward_tonic_returns u action _ 3%Q self n b En Eb) in R.
    injection R as <-.
    repeat match goal with
           | |- context [if ?c then _ else _] => destruct c
           end; discriminate.
  - unfold MusicTheoryEnv.reward_tonic, bind, self_num_notes, self_beat,
      getattr in R.
    rewrite En, Eb in R. discriminate R.
  - unfold MusicTheoryEnv.reward_tonic, bind, self_num_notes, getattr in R.
    rewrite En in R. discriminate R.
  - unfold MusicTheoryEnv.reward_tonic, bind, self_num_notes, getattr in R.
    rewrite En in R. discriminate R.
Qed.

(** X10: the reward of a step that returns is at least -1, and at least 0
    when the action is in the key: [reward_key] is the only method that
    takes anything away, and it takes 1. *)
Theorem step_reward_bounds (u : Util) (action : Z) (self : Env)
    (comp : list Z) (b n : Z) :
  composition self = Some comp ->
  beat self = Some b ->
  num_notes self = Some n ->
  exists out,
    MusicTheoryEnv._step u action self
    = (Ok out, stepped self comp b action) /\
    (- (1) <= reward out)%Q /\
    (Py.contains action (C_MAJOR_KEY u) = true -> 0 <= reward out)%Q.
Proof.
  intros Hcomp Hb Hn.
  destruct (step_runs u action self comp b n Hcomp Hb Hn)
    as (t & k & r & m & p & Ht & Hk & Hr & Hm & Hp & Hstep).
  eexists. split; [exact Hstep|].
  apply reward_tonic_nonneg in Ht. apply reward_non_repeating_nonneg in Hr.
  apply reward_motif_nonneg in Hm. apply reward_repeated_motif_nonneg in Hp.
  injection Hk as <-. unfold reward. cbn [fst snd].
  assert (Hsum : (0 <= t + r + m + p)%Q).
  { repeat apply sum_nonneg; assumption. }
  set (k := if negb (Py.contains action (C_MAJOR_KEY u)) then (-1)%Q else 0%Q).
  assert (E : (0 + t + k + r + m + p == k + (t + r + m + p))%Q) by ring.
  rewrite E. unfold k.
  destruct (Py.contains action (C_MAJOR_KEY u)); simpl negb; cbv iota; split.
  - apply (Qle_trans _ 0); [discriminate|].
    apply sum_nonneg; [apply Qle_refl | exact Hsum].
  - intros _. apply sum_nonneg; [apply Qle_refl | exact Hsum].
  - apply (Qle_trans _ (- (1) + 0)); [discriminate|].
    apply Qplus_le_r. exact Hsum.
  - discriminate.
Qed.

Lemma step_reward_bounds_witness :
  exists out,
    MusicTheoryEnv._step magenta_util 3 (env_with magenta_util [14] 1 (Some 64))
    = (Ok out, stepped (env_with magenta_util [14] 1 (Some 64)) [14] 1 3) /\
    (- (1) <= reward out)%Q.
Proof.
  destruct (step_reward_bounds magenta_util 3
              (env_with magenta_util [14] 1 (Some 64)) [14] 1 64
              eq_refl eq_refl eq_refl) as (out & Hstep & Hlow & _).
  exists out. split; [exact Hstep | exact Hlow].
Defined.

(** X11: on an object whose [num_notes] has not been assigned, a step
    appends the action and advances the beat, and then raises
    [AttributeError]: the failed step is not undone. *)
Theorem step_without_num_notes (u : Util) (action : Z) (self : Env)
    (comp : list Z) (b : Z) :
  composition self = Some comp ->
  beat self = Some b ->
  num_notes self = None ->
  MusicTheoryEnv._step u action self
  = (Raise (AttributeError "num_notes"), stepped self comp b action).
Proof.
  intros Hcomp Hb Hn. unfold MusicTheoryEnv._step. unfold bind at 1.
  rewrite (music_env_step action self comp b Hcomp Hb).
  unfold MusicTheoryEnv.reward_tonic, bind, self_num_notes, getattr.
  simpl. rewrite Hn. reflexivity.
Qed.

Lemma step_without_num_notes_witness :
  MusicTheoryEnv._step magenta_util 14 (env_with magenta_util [2] 1 None)
  = (Raise (AttributeError "num_notes"),
     stepped (env_with magenta_util [2] 1 None) [2] 1 14).
Proof.
  apply (step_without_num_notes magenta_util 14
           (env_with magenta_util [2] 1 None) [2] 1);
    reflexivity.
Defined.

(** X12: a step before the first reset raises [AttributeError] for the
    composition and changes nothing, for the base class and the subclass
    alike, as on the object that [__init__] builds; and when only the beat
    is missing, the action has been appended by the time the step raises. *)
Theorem step_before_reset (u : Util) (action : Z) (self : Env) :
  (composition self = None ->
   MusicEnv._step action self = (Raise (AttributeError "composition"), self) /\
   MusicTheoryEnv._step u action self
   = (Raise (AttributeError "composition"), self)) /\
  (forall comp, composition self = Some comp -> beat self = None ->
   exists self',
     MusicEnv._step action self = (Raise (AttributeError "beat"), self') /\
     MusicTheoryEnv._step u action self = (Raise (AttributeError "beat"), self') /\
     composition self' = Some (comp ++ [action]) /\
     beat self' = None) /\
  composition (MusicEnv.__init__ u) = None.
Proof.
  split; [|split; [|reflexivity]].
  - intros Hcomp.
    assert (E : MusicEnv._step action self
                = (Raise (AttributeError "composition"), self)).
    { unfold MusicEnv._step, bind, self_composition, getattr.
      rewrite Hcomp. reflexivity. }
    split; [exact E|].
    unfold MusicTheoryEnv._step. unfold bind at 1. rewrite E. reflexivity.
  - intros comp Hcomp Hb.
    assert (E : MusicEnv._step action self
                = (Raise (AttributeError "beat"),
                   snd (set_composition (comp ++ [action]) self))).
    { unfold MusicEnv._step, bind, self_composition, self_beat, getattr.
      rewrite Hcomp. simpl. rewrite Hb. reflexivity. }
    eexists. split; [exact E|]. split.
    + unfold MusicTheoryEnv._step. unfold bind at 1. rewrite E. reflexivity.
    + split; [reflexivity | exact Hb].
Qed.

Lemma step_before_reset_witness :
  composition (MusicEnv.__init__ magenta_util) = None /\
  MusicTheoryEnv._step magenta_util 14 (MusicEnv.__init__ magenta_util)
  = (Raise (AttributeError "composition"), MusicEnv.__init__ magenta_util).
Proof.
  split; [reflexivity|].
  apply (proj1 (step_before_reset magenta_util 14
                  (MusicEnv.__init__ magenta_util))).
  reflexivity.
Defined.

Lemma episode_trace (u : Util) (actions : list Z) :
  forall (self : Env) (comp : list Z) (b n : Z),
    composition self = Some comp ->
    beat self = Some b ->
    num_notes self = Some n ->
    exists outs self',
      episode u actions self = (Ok outs, self') /\
      map observation outs = actions /\
      composition self' = Some (comp ++ actions) /\
      beat self' = Some (b + Py.len actions) /\
      num_notes self' = Some n /\
      composition_length self' = composition_length self.
Proof.
  induction actions as [|action rest IH]; intros self comp b n Hcomp Hb Hn.
  - exists [], self. split; [reflexivity|]. split; [reflexivity|].
    split; [rewrite app_nil_r; exact Hcomp|].
    split; [rewrite Hb; f_equal; unfold Py.len; simpl; lia|].
    split; [exact Hn | reflexivity].
  - destruct (step_runs u action self comp b n Hcomp Hb Hn)
      as (t & k & r & m & p & _ & _ & _ & _ & _ & Hstep).
    destruct (IH (stepped self comp b action) (comp ++ [action]) (b + 1) n
                eq_refl eq_refl Hn)
      as (outs & self' & Hrun & Hobs & Hcomp' & Hb' & Hn' & Hlen).
    eexists (_ :: outs), self'.
    split.
    { simpl. unfold bind at 1. rewrite Hstep.
      unfold bind at 1. rewrite Hrun. reflexivity. }
    split; [simpl; rewrite Hobs; reflexivity|].
    split; [rewrite Hcomp', <- app_assoc; reflexivity|].
    split; [rewrite Hb'; f_equal; unfold Py.len; simpl length; lia|].
    split; [exact Hn' | exact Hlen].
Qed.

(** X13: after a reset and one step per action, the composition is exactly
    the list of the actions, in order, whatever it held before the reset;
    each step hands its action back as the observation; the beat is the
    number of actions; and [num_notes] and [composition_length] are as they
    were. *)
Theorem episode_records_actions (u : Util) (drawn : Z) (actions : list Z)
    (self0 : Env) (n : Z) :
  num_notes self0 = Some n ->
  exists outs self',
    (_ <- MusicEnv._reset drawn ;; episode u actions) self0 = (Ok outs, self') /\
    map observation outs = actions /\
    composition self' = Some actions /\
    beat self' = Some (Py.len actions) /\
    num_notes self' = Some n /\
    composition_length self' = composition_length self0.
Proof.
  intros Hn.
  destruct (episode_trace u actions (snd (MusicEnv._reset drawn self0)) [] 0 n
              eq_refl eq_refl Hn)
    as (outs & self' & Hrun & Hobs & Hcomp & Hb & Hn' & Hlen).
  exists outs, self'. split; [exact Hrun|]. split; [exact Hobs|].
  split; [exact Hcomp|]. split; [exact Hb|]. split; [exact Hn' | exact Hlen].
Qed.

Lemma episode_records_actions_witness :
  num_notes (env_with magenta_util [7; 7] 2 (Some 64)) = Some 64 /\
  exists outs self',
    (_ <- MusicEnv._reset 5 ;; episode magenta_util [14; 21; 1])
      (env_with magenta_util [7; 7] 2 (Some 64))
    = (Ok outs, self') /\
    composition self' = Some [14; 21; 1].
Proof.
  split; [reflexivity|].
  destruct (episode_records_actions magenta_util 5 [14; 21; 1]
              (env_with magenta_util [7; 7] 2 (Some 64)) 64 eq_refl)
    as (outs & self' & Hrun & _ & Hcomp & _).
  exists outs, self'. split; [exact Hrun | exact Hcomp].
Defined.

(** ** The previous sounded note *)

Lemma skip_from_sounded (u : Util) (k : nat) (a : Z) (self : Env) :
  sounded u a -> returns (MusicTheoryEnv.skip_non_notes u k a) self a.
Proof.
  intros Ha. destruct (sounded_eqb u a Ha) as [Hh Hr].
  destruct k as [|k]; simpl; [apply returns_ret|].
  rewrite Hh, Hr. apply returns_ret.
Qed.

(** From any position inside the holds and rests that follow the sounded
    note [a], the loop walks back to [a]. *)
Lemma skip_reaches_sounded (u : Util) (self : Env) (earlier silence : list Z)
    (a action : Z) :
  composition self = Some (earlier ++ a :: silence ++ [action]) ->
  sounded u a ->
  Forall (non_note u) silence ->
  forall (j : nat) (p : Z),
    (j <= length silence)%nat ->
    p = a \/ non_note u p ->
    returns (MusicTheoryEnv.skip_non_notes u (S (length earlier + j)) p) self a.
Proof.
  intros Hcomp Ha Hsil.
  set (comp := earlier ++ a :: silence ++ [action]) in *.
  assert (Hread : forall i x, comp !! i = Some x ->
            returns (item comp (Z.of_nat i)) self x).
  { intros i x Hx. apply returns_item.
    destruct (index_in_range comp (Z.of_nat i)) as [-> _].
    - apply lookup_lt_Some in Hx. unfold Py.len. lia.
    - rewrite Nat2Z.id. exact Hx. }
  induction j as [|j IH]; intros p Hj Hp.
  - destruct Hp as [->|Hp]; [apply skip_from_sounded, Ha|].
    simpl. rewrite (non_note_eqb u p Hp).
    eapply returns_bind; [apply returns_getattr, Hcomp|].
    rewrite Nat.add_0_r.
    eapply returns_bind;
      [apply Hread; unfold comp; apply list_lookup_middle; reflexivity|].
    apply skip_from_sounded, Ha.
  - destruct Hp as [->|Hp]; [apply skip_from_sounded, Ha|].
    simpl. rewrite (non_note_eqb u p Hp).
    destruct (lookup_lt_is_Some_2 silence j ltac:(lia)) as [x Hx].
    assert (Hx' : comp !! (length earlier + S j)%nat = Some x).
    { unfold comp. rewrite lookup_app_r by lia.
      replace (length earlier + S j - length earlier)%nat with (S j) by lia.
      simpl. apply lookup_app_l_Some. exact Hx. }
    eapply returns_bind; [apply returns_getattr, Hcomp|].
    eapply returns_bind; [apply Hread, Hx'|].
    replace (length earlier + S j)%nat with (S (length earlier + j)) by lia.
    apply IH; [lia|]. right.
    eapply Forall_forall; [exact Hsil|]. eapply list_elem_of_lookup_2, Hx.
Qed.

(** The start of [detect_sequential_interval], up to the test on the note
    that the loop has found. *)
Lemma previous_sounded_note (u : Util) (self : Env)
    (earlier silence : list Z) (a action : Z) :
  composition self = Some (earlier ++ a :: silence ++ [action]) ->
  sounded u a ->
  Forall (non_note u) silence ->
  exists p,
    returns (item (earlier ++ a :: silence ++ [action]) (-2)) self p /\
    returns
      (MusicTheoryEnv.skip_non_notes u
         (Z.to_nat (Py.len (earlier ++ a :: silence ++ [action]) - 2 + 1)) p)
      self a.
Proof.
  intros Hcomp Ha Hsil.
  replace (Z.to_nat (Py.len (earlier ++ a :: silence ++ [action]) - 2 + 1))
    with (S (length earlier + length silence))
    by (unfold Py.len; rewrite length_app; simpl; rewrite length_app; simpl; lia).
  destruct silence as [|x silence _] using rev_ind.
  - exists a. split.
    + apply returns_item. apply (index_before_last earlier a action).
    + apply skip_from_sounded, Ha.
  - exists x. split.
    + apply returns_item.
      replace (earlier ++ a :: (silence ++ [x]) ++ [action])
        with ((earlier ++ a :: silence) ++ [x; action])
        by (rewrite <- !app_assoc; reflexivity).
      apply index_before_last.
    + apply (skip_reaches_sounded u self earlier (silence ++ [x]) a action
               Hcomp Ha Hsil); [lia|].
      right. eapply Forall_forall; [exact Hsil|].
      apply elem_of_app. right. left.
Qed.

(** The classifier on a sounded action, after a sounded note and then only
    holds and rests. *)
Lemma interval_after_silence (u : Util) (ops : RlTunerOps)
    (action a : Z) (key : option (list Z)) (self : Env)
    (earlier silence : list Z) :
  composition self = Some (earlier ++ a :: silence ++ [action]) ->
  sounded u a ->
  Forall (non_note u) silence ->
  sounded u action ->
  returns (MusicTheoryEnv.detect_sequential_interval u ops action key) self
    (sounded_category ops key a action, action, a).
Proof.
  intros Hcomp Ha Hsil Hact.
  destruct (sounded_eqb u a Ha) as [Hah Har].
  destruct (sounded_eqb u action Hact) as [Hh Hr].
  destruct (previous_sounded_note u self earlier silence a action Hcomp Ha Hsil)
    as (p & Hp & Hskip).
  unfold MusicTheoryEnv.detect_sequential_interval.
  eapply returns_bind; [apply returns_getattr, Hcomp|].
  eapply returns_bind; [exact Hp|].
  eapply returns_bind; [apply returns_getattr, Hcomp|].
  cbv zeta. eapply returns_bind; [exact Hskip|].
  rewrite Hah, Har, Hh, Hr.
  unfold returns, sounded_category.
  destruct key as [k|];
    cbv beta iota zeta delta
      [bind ret MusicTheoryEnv.in_either MusicTheoryEnv.local];
    [reflexivity|].
  set (fifth := Qeq_bool (inject_Z (Z.abs (action - a))) (FIFTH ops)).
  set (third := Qeq_bool (inject_Z (Z.abs (action - a))) (THIRD ops)).
  set (is_c := Py.contains a [2; 14; 26]).
  set (is_g := Py.contains a [9; 21; 33]).
  set (is_e := Py.contains a [6; 18; 30]).
  destruct fifth, third, is_c, is_g, is_e; reflexivity.
Qed.

(** X14: the interval is taken from the most recent sounded note: with a
    sounded note [a], then only holds and rests, then a sounded action, the
    classifier returns the category of the pair ([a], action), the action
    and [a], and leaves the object as it was. *)
Theorem interval_skips_holds_and_rests (u : Util) (ops : RlTunerOps)
    (action a : Z) (key : option (list Z)) (self : Env)
    (earlier silence : list Z) :
  composition self = Some (earlier ++ a :: silence ++ [action]) ->
  sounded u a ->
  Forall (non_note u) silence ->
  sounded u action ->
  returns (MusicTheoryEnv.detect_sequential_interval u ops action key) self
    (sounded_category ops key a action, action, a).
Proof. apply interval_after_silence. Qed.

Lemma interval_skips_holds_and_rests_witness :
  returns
    (MusicTheoryEnv.detect_sequential_interval magenta_util magenta_ops 16 None)
    (env_with magenta_util ([4] ++ 14 :: [1; 0; 1] ++ [16]) 6 None)
    (sounded_category magenta_ops None 14 16, 16, 14).
Proof.
  apply (interval_skips_holds_and_rests magenta_util magenta_ops 16 14 None
           (env_with magenta_util ([4] ++ 14 :: [1; 0; 1] ++ [16]) 6 None)
           [4] [1; 0; 1] eq_refl).
  - split; discriminate.
  - repeat (constructor; [first [left; reflexivity | right; reflexivity]|]).
    constructor.
  - split; discriminate.
Defined.

(** X15: without an explicit key, a hold after the sounded note [a] (with
    only holds and rests in between) is classified as the hold after a
    strong degree when [a] is one of the tonic codes 2, 14, 26 or the fifth
    codes 9, 21, 33, and as the plain hold otherwise; a rest likewise, with
    the two rest categories. *)
Theorem hold_and_rest_categories (u : Util) (ops : RlTunerOps) (action a : Z)
    (self : Env) (earlier silence : list Z) :
  composition self = Some (earlier ++ a :: silence ++ [action]) ->
  sounded u a ->
  Forall (non_note u) silence ->
  let strong :=
    Py.contains a [2; 14; 26] || Py.contains a [9; 21; 33] in
  (action = NO_EVENT u ->
   returns (MusicTheoryEnv.detect_sequential_interval u ops action None) self
     (if strong then HOLD_INTERVAL_AFTER_THIRD_OR_FIFTH ops
      else HOLD_INTERVAL ops, action, a)) /\
  (action = NOTE_OFF u -> action <> NO_EVENT u ->
   returns (MusicTheoryEnv.detect_sequential_interval u ops action None) self
     (if strong then REST_INTERVAL_AFTER_THIRD_OR_FIFTH ops
      else REST_INTERVAL ops, action, a)).
Proof.
  intros Hcomp Ha Hsil strong.
  destruct (sounded_eqb u a Ha) as [Hah Har].
  destruct (previous_sounded_note u self earlier silence a action Hcomp Ha Hsil)
    as (p & Hp & Hskip).
  assert (Hstart : forall v,
    returns
      (if (a =? NOTE_OFF u) || (a =? NO_EVENT u)
       then ret (0%Q, action, a)
       else
         if action =? NO_EVENT u
         then
           strong' <- MusicTheoryEnv.in_either a "tonic_notes"
                        (Some [2; 14; 26]) "fifth_notes" (Some [9; 21; 33]) ;;
           (if strong'
            then ret (HOLD_INTERVAL_AFTER_THIRD_OR_FIFTH ops, action, a)
            else ret (HOLD_INTERVAL ops, action, a))
         else
           if action =? NOTE_OFF u
           then
             strong' <- MusicTheoryEnv.in_either a "tonic_notes"
                          (Some [2; 14; 26]) "fifth_notes" (Some [9; 21; 33]) ;;
             (if strong'
              then ret (REST_INTERVAL_AFTER_THIRD_OR_FIFTH ops, action, a)
              else ret (REST_INTERVAL ops, action, a))
           else ret v) self
      (if action =? NO_EVENT u
       then (if strong then HOLD_INTERVAL_AFTER_THIRD_OR_FIFTH ops
             else HOLD_INTERVAL ops, action, a)
       else if action =? NOTE_OFF u
            then (if strong then REST_INTERVAL_AFTER_THIRD_OR_FIFTH ops
                  else REST_INTERVAL ops, action, a)
            else v)).
  { intros v. rewrite Hah, Har. unfold strong, returns.
    cbv beta iota zeta delta
      [bind ret MusicTheoryEnv.in_either MusicTheoryEnv.local orb].
    destruct (action =? NO_EVENT u), (action =? NOTE_OFF u),
      (Py.contains a [2; 14; 26]), (Py.contains a [9; 21; 33]);
      reflexivity. }
  split.
  - intros Hact.
    unfold MusicTheoryEnv.detect_sequential_interval.
    eapply returns_bind; [apply returns_getattr, Hcomp|].
    eapply returns_bind; [exact Hp|].
    eapply returns_bind; [apply returns_getattr, Hcomp|].
    cbv zeta. eapply returns_bind; [exact Hskip|].
    rewrite Har, Hah. simpl orb. cbv iota.
    rewrite (proj2 (Z.eqb_eq action (NO_EVENT u)) Hact).
    specialize (Hstart (0%Q, action, a)).
    rewrite Har, Hah, (proj2 (Z.eqb_eq action (NO_EVENT u)) Hact) in Hstart.
    exact Hstart.
  - intros Hact Hne.
    unfold MusicTheoryEnv.detect_sequential_interval.
    eapply returns_bind; [apply returns_getattr, Hcomp|].
    eapply returns_bind; [exact Hp|].
    eapply returns_bind; [apply returns_getattr, Hcomp|].
    cbv zeta. eapply returns_bind; [exact Hskip|].
    rewrite Har, Hah. simpl orb. cbv iota.
    rewrite (proj2 (Z.eqb_neq action (NO_EVENT u)) Hne).
    rewrite (proj2 (Z.eqb_eq action (NOTE_OFF u)) Hact).
    specialize (Hstart (0%Q, action, a)).
    rewrite Har, Hah, (proj2 (Z.eqb_neq action (NO_EVENT u)) Hne),
      (proj2 (Z.eqb_eq action (NOTE_OFF u)) Hact) in Hstart.
    exact Hstart.
Qed.

Lemma hold_and_rest_categories_witness :
  returns
    (MusicTheoryEnv.detect_sequential_interval magenta_util magenta_ops 1 None)
    (env_with magenta_util ([4] ++ 14 :: [0] ++ [1]) 4 None)
    (HOLD_INTERVAL_AFTER_THIRD_OR_FIFTH magenta_ops, 1, 14) /\
  returns
    (MusicTheoryEnv.detect_sequential_interval magenta_util magenta_ops 0 None)
    (env_with magenta_util ([] ++ 4 :: [] ++ [0]) 2 None)
    (REST_INTERVAL magenta_ops, 0, 4).
Proof.
  split.
  - apply (proj1 (hold_and_rest_categories magenta_util magenta_ops 1 14
                    (env_with magenta_util ([4] ++ 14 :: [0] ++ [1]) 4 None)
                    [4] [0] eq_refl
                    ltac:(split; discriminate)
                    ltac:(constructor; [right; reflexivity | constructor]))).
    reflexivity.
  - apply (proj2 (hold_and_rest_categories magenta_util magenta_ops 0 4
                    (env_with magenta_util ([] ++ 4 :: [] ++ [0]) 2 None)
                    [] [] eq_refl
                    ltac:(split; discriminate)
                    ltac:(constructor)));
      [reflexivity | discriminate].
Defined.

(** X16: with an explicit key the lists of tonic and fifth codes are never
    bound, so a hold or a rest after a sounded note raises
    [UnboundLocalError] for [tonic_notes]; the object is left as it was. *)
Theorem hold_with_explicit_key_raises (u : Util) (ops : RlTunerOps)
    (action a : Z) (key : list Z) (self : Env) (earlier silence : list Z) :
  composition self = Some (earlier ++ a :: silence ++ [action]) ->
  sounded u a ->
  Forall (non_note u) silence ->
  non_note u action ->
  MusicTheoryEnv.detect_sequential_interval u ops action (Some key) self
  = (Raise (UnboundLocalError "tonic_notes"), self).
Proof.
  intros Hcomp Ha Hsil Hact.
  destruct (sounded_eqb u a Ha) as [Hah Har].
  destruct (previous_sounded_note u self earlier silence a action Hcomp Ha Hsil)
    as (p & Hp & Hskip).
  unfold MusicTheoryEnv.detect_sequential_interval.
  rewrite (bind_returns _ _ _ _ (returns_getattr "composition" composition
                                   self _ Hcomp)).
  rewrite (bind_returns _ _ _ _ Hp). cbv zeta.
  rewrite (bind_returns _ _ _ _ (returns_getattr "composition" composition
                                   self _ Hcomp)).
  rewrite (bind_returns _ _ _ _ Hskip).
  rewrite Hah, Har. simpl orb. cbv iota.
  destruct Hact as [-> | ->].
  - rewrite Z.eqb_refl. reflexivity.
  - rewrite Z.eqb_refl. destruct (NOTE_OFF u =? NO_EVENT u); reflexivity.
Qed.

Lemma hold_with_explicit_key_raises_witness :
  MusicTheoryEnv.detect_sequential_interval magenta_util magenta_ops 1
    (Some [2; 4; 6]) (env_with magenta_util ([] ++ 4 :: [0] ++ [1]) 3 None)
  = (Raise (UnboundLocalError "tonic_notes"),
     env_with magenta_util ([] ++ 4 :: [0] ++ [1]) 3 None).
Proof.
  apply (hold_with_explicit_key_raises magenta_util magenta_ops 1 4 [2; 4; 6]
           (env_with magenta_util ([] ++ 4 :: [0] ++ [1]) 3 None) [] [0]
           eq_refl).
  - split; discriminate.
  - constructor; [right; reflexivity | constructor].
  - left. reflexivity.
Defined.

Lemma skip_returns (u : Util) (self : Env) (comp : list Z) (k : nat) (p : Z) :
  composition self = Some comp ->
  (k <= length comp)%nat ->
  exists q, returns (MusicTheoryEnv.skip_non_notes u k p) self q.
Proof.
  intros Hcomp. revert p. induction k as [|k IH]; intros p Hk; simpl.
  - exists p. apply returns_ret.
  - destruct ((p =? NO_EVENT u) || (p =? NOTE_OFF u));
      [|exists p; apply returns_ret].
    destruct (index_in_range comp (Z.of_nat k)) as [Hidx [y Hy]];
      [unfold Py.len; lia|].
    destruct (IH y ltac:(lia)) as [q Hq]. exists q.
    eapply returns_bind; [apply returns_getattr, Hcomp|].
    eapply returns_bind; [apply returns_item; rewrite Hidx; exact Hy|].
    exact Hq.
Qed.

(** X17: without an explicit key, the classifier raises exactly on the
    compositions that have fewer than two elements, where it raises
    [IndexError] and changes nothing; on every longer composition it
    returns, whatever the codes. *)
Theorem interval_raises_iff_short (u : Util) (ops : RlTunerOps) (action : Z)
    (self : Env) (comp : list Z) :
  composition self = Some comp ->
  (Py.len comp < 2 ->
   MusicTheoryEnv.detect_sequential_interval u ops action None self
   = (Raise IndexError, self)) /\
  (2 <= Py.len comp ->
   exists category prev_note,
     returns (MusicTheoryEnv.detect_sequential_interval u ops action None) self
       (category, action, prev_note)).
Proof.
  intros Hcomp. split.
  - intros Hshort. unfold MusicTheoryEnv.detect_sequential_interval.
    rewrite (bind_returns _ _ _ _ (returns_getattr "composition" composition
                                     self _ Hcomp)).
    unfold item, Py.index. simpl (-2 <? 0).
    destruct (Z.ltb_spec (Py.len comp + -2) 0); [reflexivity | lia].
  - intros Hlong.
    assert (Hfirst : exists p, Py.index comp (-2) = Some p).
    { unfold Py.index. simpl (-2 <? 0).
      destruct (Z.ltb_spec (Py.len comp + -2) 0); [lia|].
      apply lookup_lt_is_Some. unfold Py.len in *. lia. }
    destruct Hfirst as [p Hp].
    destruct (skip_returns u self comp (Z.to_nat (Py.len comp - 2 + 1)) p Hcomp)
      as [q Hq]; [unfold Py.len in *; lia|].
    assert (Htail : exists category prev_note,
      returns
        (if (q =? NOTE_OFF u) || (q =? NO_EVENT u)
         then ret (0%Q, action, q)
         else
           if action =? NO_EVENT u
           then
             strong <- MusicTheoryEnv.in_either q "tonic_notes"
                         (Some [2; 14; 26]) "fifth_notes" (Some [9; 21; 33]) ;;
             (if strong
              then ret (HOLD_INTERVAL_AFTER_THIRD_OR_FIFTH ops, action, q)
              else ret (HOLD_INTERVAL ops, action, q))
           else
             if action =? NOTE_OFF u
             then
               strong <- MusicTheoryEnv.in_either q "tonic_notes"
                           (Some [2; 14; 26]) "fifth_notes"
                           (Some [9; 21; 33]) ;;
               (if strong
                then ret (REST_INTERVAL_AFTER_THIRD_OR_FIFTH ops, action, q)
                else ret (REST_INTERVAL ops, action, q))
             else
               in_key_fifth <-
                 (if true && Qeq_bool (inject_Z (Z.abs (action - q))) (FIFTH ops)
                  then MusicTheoryEnv.in_either q "c_notes" (Some [2; 14; 26])
                         "g_notes" (Some [9; 21; 33])
                  else ret false) ;;
               (if in_key_fifth
                then ret (IN_KEY_FIFTH ops, action, q)
                else
                  in_key_third <-
                    (if true
                        && Qeq_bool (inject_Z (Z.abs (action - q))) (THIRD ops)
                     then MusicTheoryEnv.in_either q "c_notes"
                            (Some [2; 14; 26]) "e_notes" (Some [6; 18; 30])
                     else ret false) ;;
                  (if in_key_third
                   then ret (IN_KEY_THIRD ops, action, q)
                   else ret (inject_Z (Z.abs (action - q)), action, q))))
        self (category, action, prev_note)).
    { unfold returns.
      cbv beta iota zeta delta
        [bind ret MusicTheoryEnv.in_either MusicTheoryEnv.local andb].
      destruct ((q =? NOTE_OFF u) || (q =? NO_EVENT u)),
        (action =? NO_EVENT u), (action =? NOTE_OFF u),
        (Qeq_bool (inject_Z (Z.abs (action - q))) (FIFTH ops)),
        (Qeq_bool (inject_Z (Z.abs (action - q))) (THIRD ops)),
        (Py.contains q [2; 14; 26]), (Py.contains q [9; 21; 33]),
        (Py.contains q [6; 18; 30]);
        eexists _, _; reflexivity. }
    destruct Htail as (category & prev_note & Htail).
    exists category, prev_note.
    unfold MusicTheoryEnv.detect_sequential_interval.
    eapply returns_bind; [apply returns_getattr, Hcomp|].
    eapply returns_bind; [apply returns_item, Hp|].
    eapply returns_bind; [apply returns_getattr, Hcomp|].
    cbv zeta. eapply returns_bind; [exact Hq|].
    exact Htail.
Qed.

Lemma interval_raises_iff_short_witness :
  MusicTheoryEnv.detect_sequential_interval magenta_util magenta_ops 2 None
    (env_with magenta_util [] 0 None)
  = (Raise IndexError, env_with magenta_util [] 0 None) /\
  exists category prev_note,
    returns
      (MusicTheoryEnv.detect_sequential_interval magenta_util magenta_ops 9 None)
      (env_with magenta_util [1; 2; 0; 9] 4 None) (category, 9, prev_note).
Proof.
  split.
  - apply (proj1 (interval_raises_iff_short magenta_util magenta_ops 2
                    (env_with magenta_util [] 0 None) [] eq_refl)).
    vm_compute. reflexivity.
  - apply (proj2 (interval_raises_iff_short magenta_util magenta_ops 9
                    (env_with magenta_util [1; 2; 0; 9] 4 None) [1; 2; 0; 9]
                    eq_refl)).
    vm_compute. discriminate.
Defined.

(** ** The interval reward *)

(** X18: when every element before the action is a hold or a rest (and
    there is at least one), [reward_preferred_intervals] returns 0, whatever
    the action, the scaler and the key: there is no interval to reward. *)
Theorem no_interval_no_reward (u : Util) (ops : RlTunerOps) (action : Z)
    (scaler : Q) (key : option (list Z)) (self : Env) (earlier : list Z)
    (x : Z) :
  composition self = Some (earlier ++ [x; action]) ->
  (forall y, y ∈ earlier ++ [x] -> non_note u y) ->
  returns (MusicTheoryEnv.reward_preferred_intervals u ops action scaler key)
    self 0%Q.
Proof.
  intros Hcomp Hall.
  destruct (interval_all_non_notes u ops action key self earlier x Hcomp Hall)
    as (p & Hp & _).
  unfold MusicTheoryEnv.reward_preferred_intervals.
  eapply returns_bind; [exact Hp|]. apply returns_ret.
Qed.

Lemma no_interval_no_reward_witness :
  returns
    (MusicTheoryEnv.reward_preferred_intervals magenta_util magenta_ops 9 5%Q
       None)
    (env_with magenta_util ([1; 0] ++ [1; 9]) 4 None) 0%Q.
Proof.
  apply (no_interval_no_reward magenta_util magenta_ops 9 5%Q None
           (env_with magenta_util ([1; 0] ++ [1; 9]) 4 None) [1; 0] 1 eq_refl).
  intros y Hy.
  repeat (apply elem_of_cons in Hy as [->|Hy];
          [first [left; reflexivity | right; reflexivity]|]).
  inversion Hy.
Defined.

Lemma beyond_is_not_equal (i c o : Q) :
  (c <= o)%Q -> (o < i)%Q -> Qeq_bool i c = false.
Proof.
  intros Hc Ho. destruct (Qeq_bool i c) eqn:E; [|reflexivity].
  apply Qeq_bool_iff in E. rewrite E in Ho.
  exfalso. apply (Qlt_irrefl c). apply (Qle_lt_trans _ o); assumption.
Qed.

(** X19: a leap of more than an octave from the previous sounded note costs
    exactly the scaler, given that the interval constants compared after
    the test for leaps do not exceed the octave: none of the smaller
    rewards replaces the penalty. *)
Theorem leap_is_penalised (u : Util) (ops : RlTunerOps) (action a : Z)
    (scaler : Q) (key : option (list Z)) (self : Env)
    (earlier silence : list Z) :
  composition self = Some (earlier ++ a :: silence ++ [action]) ->
  sounded u a ->
  Forall (non_note u) silence ->
  sounded u action ->
  within_octave ops ->
  (OCTAVE ops < inject_Z (Z.abs (action - a)))%Q ->
  returns (MusicTheoryEnv.reward_preferred_intervals u ops action scaler key)
    self (- (1) * scaler)%Q.
Proof.
  intros Hcomp Ha Hsil Hact [Hoct Htable] Hleap.
  set (i := inject_Z (Z.abs (action - a))) in *.
  assert (Hne : forall c, (c <= OCTAVE ops)%Q -> Qeq_bool i c = false)
    by (intros c Hc; apply (beyond_is_not_equal i c (OCTAVE ops) Hc Hleap)).
  repeat match goal with
         | H : Forall _ (_ :: _) |- _ =>
             apply Forall_cons in H; destruct H as [?%Hne H]
         end.
  assert (Hzero : Qeq_bool i 0 = false) by (apply Hne; exact Hoct).
  assert (Hbig : Qle_bool i (OCTAVE ops) = false).
  { destruct (Qle_bool i (OCTAVE ops)) eqn:E; [|reflexivity].
    apply Qle_bool_iff in E. exfalso.
    apply (Qlt_irrefl i). apply (Qle_lt_trans _ (OCTAVE ops)); assumption. }
  assert (Hcat : sounded_category ops key a action = i).
  { unfold sounded_category. fold i. destruct key; [reflexivity|].
    cbv zeta.
    repeat match goal with
           | E : Qeq_bool i ?c = false |- _ => rewrite E; clear E
           end.
    reflexivity. }
  pose proof (interval_after_silence u ops action a key self
                earlier silence Hcomp Ha Hsil Hact) as R.
  rewrite Hcat in R.
  unfold MusicTheoryEnv.reward_preferred_intervals.
  eapply returns_bind; [exact R|]. cbv zeta. simpl fst.
  rewrite Hzero, Hbig. clear Hzero.
  repeat match goal with
         | E : Qeq_bool i ?c = false |- _ => rewrite E; clear E
         end.
  simpl negb. cbv iota.
  destruct (Qeq_bool i (REST_INTERVAL ops)), (Qeq_bool i (HOLD_INTERVAL ops)),
    (Qeq_bool i (REST_INTERVAL_AFTER_THIRD_OR_FIFTH ops)),
    (Qeq_bool i (HOLD_INTERVAL_AFTER_THIRD_OR_FIFTH ops)),
    (Qeq_bool i (SEVENTH ops)); apply returns_ret.
Qed.

Lemma leap_is_penalised_witness :
  within_octave magenta_ops /\
  (OCTAVE magenta_ops < inject_Z (Z.abs (16 - 2)))%Q /\
  returns
    (MusicTheoryEnv.reward_preferred_intervals magenta_util magenta_ops 16 5%Q
       None)
    (env_with magenta_util ([] ++ 2 :: [1] ++ [16]) 3 None) (- (1) * 5)%Q.
Proof.
  assert (Htable : within_octave magenta_ops).
  { split; [discriminate|]. repeat (constructor; [discriminate|]). constructor. }
  assert (Hleap : (OCTAVE magenta_ops < inject_Z (Z.abs (16 - 2)))%Q)
    by reflexivity.
  split; [exact Htable|]. split; [exact Hleap|].
  apply (leap_is_penalised magenta_util magenta_ops 16 2 5%Q None
           (env_with magenta_util ([] ++ 2 :: [1] ++ [16]) 3 None) [] [1]
           eq_refl).
  - split; discriminate.
  - constructor; [left; reflexivity | constructor].
  - split; discriminate.
  - exact Htable.
  - exact Hleap.
Defined.

(** X20: repeating the previous sounded note (the same code again, with
    only holds and rests in between) earns no interval reward, with or
    without an explicit key, as long as neither the fifth nor the third is
    the constant 0: the interval is 0 and the method returns before its
    table. *)
Theorem unison_no_reward (u : Util) (ops : RlTunerOps) (a : Z) (scaler : Q)
    (key : option (list Z)) (self : Env) (earlier silence : list Z) :
  composition self = Some (earlier ++ a :: silence ++ [a]) ->
  sounded u a ->
  Forall (non_note u) silence ->
  ~ (FIFTH ops == 0)%Q ->
  ~ (THIRD ops == 0)%Q ->
  returns (MusicTheoryEnv.reward_preferred_intervals u ops a scaler key)
    self 0%Q.
Proof.
  intros Hcomp Ha Hsil Hfifth Hthird.
  pose proof (interval_after_silence u ops a a key self earlier silence
                Hcomp Ha Hsil Ha) as R.
  assert (Hcat : sounded_category ops key a a = 0%Q).
  { unfold sounded_category. rewrite Z.sub_diag.
    change (inject_Z (Z.abs 0)) with 0%Q. destruct key; [reflexivity|].
    cbv zeta.
    destruct (Qeq_bool 0 (FIFTH ops)) eqn:Ef.
    { apply Qeq_bool_iff in Ef. exfalso. apply Hfifth. symmetry. exact Ef. }
    destruct (Qeq_bool 0 (THIRD ops)) eqn:Et.
    { apply Qeq_bool_iff in Et. exfalso. apply Hthird. symmetry. exact Et. }
    reflexivity. }
  rewrite Hcat in R.
  unfold MusicTheoryEnv.reward_preferred_intervals.
  eapply returns_bind; [exact R|]. apply returns_ret.
Qed.

Lemma unison_no_reward_witness :
  returns
    (MusicTheoryEnv.reward_preferred_intervals magenta_util magenta_ops 14 5%Q
       None)
    (env_with magenta_util ([9] ++ 14 :: [1; 1] ++ [14]) 5 None) 0%Q.
Proof.
  apply (unison_no_reward magenta_util magenta_ops 14 5%Q None
           (env_with magenta_util ([9] ++ 14 :: [1; 1] ++ [14]) 5 None)
           [9] [1; 1] eq_refl).
  - split; discriminate.
  - repeat (constructor; [left; reflexivity|]). constructor.
  - intros H. discriminate H.
  - intros H. discriminate H.
Defined.

(** ** Symmetry of the interval category *)

(** C5, as the code has it: for sounded pitch codes [a] and [b] (with only
    holds and rests between them), the category with previous note [a] and
    action [b] equals the category with previous note [b] and action [a]
    whenever, at the distance of a fifth, [a] and [b] agree on being a C or
    G code and, at the distance of a third, on being a C or E code. This
    covers every other distance, every pair with an explicit key, and pairs
    such as C and G, a fifth apart and in key both ways. *)
Theorem interval_symmetric_when_roles_agree (u : Util) (ops : RlTunerOps)
    (a b : Z) (key : option (list Z)) (self_ab self_ba : Env)
    (earlier silence earlier' silence' : list Z) :
  sounded u a -> sounded u b ->
  Forall (non_note u) silence -> Forall (non_note u) silence' ->
  composition self_ab = Some (earlier ++ a :: silence ++ [b]) ->
  composition self_ba = Some (earlier' ++ b :: silence' ++ [a]) ->
  (key = None -> (inject_Z (Z.abs (b - a)) == FIFTH ops)%Q ->
   c_or_g a = c_or_g b) ->
  (key = None -> (inject_Z (Z.abs (b - a)) == THIRD ops)%Q ->
   c_or_e a = c_or_e b) ->
  exists category : Q,
    returns (MusicTheoryEnv.detect_sequential_interval u ops b key) self_ab
      (category, b, a) /\
    returns (MusicTheoryEnv.detect_sequential_interval u ops a key) self_ba
      (category, a, b).
Proof.
  intros Ha Hb Hsil Hsil' Hab Hba Hfifth Hthird.
  pose proof (interval_after_silence u ops b a key self_ab earlier silence
                Hab Ha Hsil Hb) as Rab.
  pose proof (interval_after_silence u ops a b key self_ba earlier' silence'
                Hba Hb Hsil' Ha) as Rba.
  assert (Ecat : sounded_category ops key b a = sounded_category ops key a b).
  { unfold sounded_category.
    replace (Z.abs (a - b)) with (Z.abs (b - a)) by lia.
    destruct key as [k|]; [reflexivity|]. cbv zeta.
    fold (c_or_g a) (c_or_g b) (c_or_e a) (c_or_e b).
    destruct (Qeq_bool (inject_Z (Z.abs (b - a))) (FIFTH ops)) eqn:Ef;
      destruct (Qeq_bool (inject_Z (Z.abs (b - a))) (THIRD ops)) eqn:Et;
      try (apply Qeq_bool_iff in Ef; rewrite (Hfifth eq_refl Ef));
      try (apply Qeq_bool_iff in Et; rewrite (Hthird eq_refl Et));
      reflexivity. }
  rewrite Ecat in Rba.
  eexists. split; [exact Rab | exact Rba].
Qed.

Lemma interval_symmetric_when_roles_agree_witness :
  sounded magenta_util 14 /\ sounded magenta_util 21 /\
  c_or_g 14 = c_or_g 21 /\
  exists category : Q,
    returns
      (MusicTheoryEnv.detect_sequential_interval magenta_util magenta_ops 21 None)
      (env_with magenta_util ([] ++ 14 :: [] ++ [21]) 2 None)
      (category, 21, 14) /\
    returns
      (MusicTheoryEnv.detect_sequential_interval magenta_util magenta_ops 14 None)
      (env_with magenta_util ([] ++ 21 :: [] ++ [14]) 2 None)
      (category, 14, 21).
Proof.
  assert (H14 : sounded magenta_util 14) by (split; discriminate).
  assert (H21 : sounded magenta_util 21) by (split; discriminate).
  split; [exact H14|]. split; [exact H21|]. split; [reflexivity|].
  apply (interval_symmetric_when_roles_agree magenta_util magenta_ops 14 21 None
           (env_with magenta_util ([] ++ 14 :: [] ++ [21]) 2 None)
           (env_with magenta_util ([] ++ 21 :: [] ++ [14]) 2 None)
           [] [] [] [] H14 H21 (Forall_nil_2 _) (Forall_nil_2 _)
           eq_refl eq_refl).
  - intros _ _. reflexivity.
  - intros _ H. vm_compute in H. discriminate H.
Defined.

(** ** Objects that the sources build *)

Lemma base_step_keeps_settings (action : Z) (self : Env) :
  num_notes (snd (MusicEnv._step action self)) = num_notes self /\
  composition_length (snd (MusicEnv._step action self))
  = composition_length self.
Proof.
  unfold MusicEnv._step, bind, self_composition, self_beat, getattr.
  destruct (composition self); simpl; [|split; reflexivity].
  destruct (beat self); simpl; split; reflexivity.
Qed.

(** No method of the two classes assigns [num_notes], and none changes
    [composition_length]. *)
Lemma built_settings (u : Util) (self : Env) :
  built u self -> num_notes self = None /\ composition_length self = 64.
Proof.
  induction 1 as [|drawn self _ IH|action self _ IH|action self _ IH].
  - split; reflexivity.
  - exact IH.
  - destruct (base_step_keeps_settings action self) as [-> ->]. exact IH.
  - rewrite step_final_state.
    destruct (base_step_keeps_settings action self) as [-> ->]. exact IH.
Qed.

(** C4 on the objects that the sources build: the composition length is
    the default, 64, but [num_notes], which [reward_tonic] reads for the
    total number of notes, has never been assigned; so [reward_tonic] raises
    [AttributeError], for the tonic at beat 0 as for every other action and
    beat, where the claim has it return 3 or 0. *)
Theorem reward_tonic_raises_on_built_objects (u : Util) (action : Z)
    (self : Env) :
  built u self ->
  composition_length self = 64 /\
  num_notes self = None /\
  MusicTheoryEnv.reward_tonic u action (C_MAJOR_TONIC u) 3%Q self
  = (Raise (AttributeError "num_notes"), self).
Proof.
  intros Hbuilt. destruct (built_settings u self Hbuilt) as [Hn Hlen].
  split; [exact Hlen|]. split; [exact Hn|].
  unfold MusicTheoryEnv.reward_tonic, bind, self_num_notes, getattr.
  rewrite Hn. reflexivity.
Qed.

Lemma reward_tonic_raises_on_built_objects_witness :
  built magenta_util (snd (MusicEnv._reset 5 (MusicEnv.__init__ magenta_util)))
  /\
  beat (snd (MusicEnv._reset 5 (MusicEnv.__init__ magenta_util))) = Some 0 /\
  MusicTheoryEnv.reward_tonic magenta_util (C_MAJOR_TONIC magenta_util)
    (C_MAJOR_TONIC magenta_util) 3%Q
    (snd (MusicEnv._reset 5 (MusicEnv.__init__ magenta_util)))
  = (Raise (AttributeError "num_notes"),
     snd (MusicEnv._reset 5 (MusicEnv.__init__ magenta_util))).
Proof.
  assert (H : built magenta_util
                (snd (MusicEnv._reset 5 (MusicEnv.__init__ magenta_util))))
    by (apply built_reset, built_init).
  split; [exact H|]. split; [reflexivity|].
  apply (reward_tonic_raises_on_built_objects magenta_util
           (C_MAJOR_TONIC magenta_util) _ H).
Defined.

(** C7 on the objects that the sources build: after a reset, the base step
    returns, with the done flag false at beat 1 (the composition length
    being 64), but the step of [MusicTheoryEnv] does not return a done flag
    at all: it raises [AttributeError] in [reward_tonic], the action
    appended and the beat advanced. *)
Theorem first_step_after_reset_raises (u : Util) (drawn action : Z)
    (self : Env) :
  built u self ->
  let fresh := snd (MusicEnv._reset drawn self) in
  MusicEnv._step action fresh
  = (Ok (action, 0%Q, false, tt), stepped fresh [] 0 action) /\
  MusicTheoryEnv._step u action fresh
  = (Raise (AttributeError "num_notes"), stepped fresh [] 0 action).
Proof.
  intros Hbuilt fresh.
  destruct (built_settings u fresh (built_reset u drawn self Hbuilt))
    as [Hn Hlen].
  assert (Hbase : MusicEnv._step action fresh
                  = (Ok (action, 0%Q, false, tt), stepped fresh [] 0 action)).
  { rewrite (music_env_step action fresh [] 0 eq_refl eq_refl), Hlen.
    reflexivity. }
  split; [exact Hbase|].
  unfold MusicTheoryEnv._step. unfold bind at 1. rewrite Hbase.
  unfold MusicTheoryEnv.reward_tonic, bind, self_num_notes, getattr.
  change (num_notes (stepped fresh [] 0 action)) with (num_notes fresh).
  rewrite Hn. reflexivity.
Qed.

Lemma first_step_after_reset_raises_witness :
  built magenta_util (MusicEnv.__init__ magenta_util) /\
  MusicTheoryEnv._step magenta_util 14
    (snd (MusicEnv._reset 5 (MusicEnv.__init__ magenta_util)))
  = (Raise (AttributeError "num_notes"),
     stepped (snd (MusicEnv._reset 5 (MusicEnv.__init__ magenta_util)))
       [] 0 14).
Proof.
  assert (H : built magenta_util (MusicEnv.__init__ magenta_util))
    by apply built_init.
  split; [exact H|].
  apply (proj2 (first_step_after_reset_raises magenta_util 5 14 _ H)).
Defined.

(** C8 on the objects that the sources build: no step returns a reward. On
    every such object, reset or not, stepped before or not, [_step] raises
    (for the composition or the beat before the first reset, for
    [num_notes] after it), so there is no returned reward to equal the
    sum. *)
Theorem step_returns_no_reward (u : Util) (action : Z) (self : Env) :
  built u self ->
  exists e self', MusicTheoryEnv._step u action self = (Raise e, self').
Proof.
  intros Hbuilt. destruct (built_settings u self Hbuilt) as [Hn _].
  unfold MusicTheoryEnv._step. unfold bind at 1.
  destruct (composition self) as [comp|] eqn:Hcomp;
    [destruct (beat self) as [b|] eqn:Hb|].
  - rewrite (music_env_step action self comp b Hcomp Hb).
    unfold MusicTheoryEnv.reward_tonic, bind, self_num_notes, getattr.
    change (num_notes (stepped self comp b action)) with (num_notes self).
    rewrite Hn. eexists _, _. reflexivity.
  - unfold MusicEnv._step, bind, self_composition, self_beat, getattr.
    rewrite Hcomp. simpl. rewrite Hb. eexists _, _. reflexivity.
  - unfold MusicEnv._step, bind, self_composition, getattr.
    rewrite Hcomp. eexists _, _. reflexivity.
Qed.

Lemma step_returns_no_reward_witness :
  built magenta_util
    (snd (MusicTheoryEnv._step magenta_util 14
            (snd (MusicEnv._reset 5 (MusicEnv.__init__ magenta_util))))) /\
  exists e self',
    MusicTheoryEnv._step magenta_util 21
      (snd (MusicTheoryEnv._step magenta_util 14
              (snd (MusicEnv._reset 5 (MusicEnv.__init__ magenta_util)))))
    = (Raise e, self').
Proof.
  assert (H : built magenta_util
                (snd (MusicTheoryEnv._step magenta_util 14
                        (snd (MusicEnv._reset 5
                                (MusicEnv.__init__ magenta_util))))))
    by (apply built_step, built_reset, built_init).
  split; [exact H|].
  apply (step_returns_no_reward magenta_util 21 _ H).
Defined.
